(** * Nao Medical doctor-patient bridge

    A shallow embedding of [main.py]: the message table, the two text
    oracles built on [get_llm_response], the summary handler and the
    input logic handler, followed by the properties of the conversation
    log that hold (or fail) on that code.

    Conventions.
    - The script talks to three things it does not own: the hosted model
      (through [InferenceClient] and [requests]), SQLite, and the clock
      behind [CURRENT_TIMESTAMP].  Their answers are fields of an
      environment record [Env]; every theorem quantifies over it.
    - Effects are threaded by the [Py] monad: a world (session state and
      database), a log of the effects performed, and a completion that is
      either normal or abrupt (an exception, [st.stop()], [st.rerun()]).
    - The two reads of the script are [read_summary_rows] and
      [read_history]: a scan of the table in rowid order, stably sorted
      by timestamp where the statement has an [ORDER BY], which is how
      SQLite evaluates them on this table (no index but the rowid).  The
      two statements are also given as relations on result lists, for
      the properties that hold of every answer SQL admits; the reads are
      shown to be among them. *)

From Stdlib Require Import ZArith QArith_base String Ascii List Sorted DecimalString.
From stdpp Require Import base list strings sorting.

Close Scope Q_scope.
Open Scope string_scope.
Open Scope Z_scope.
Open Scope list_scope.

(** ** Python values used by the script *)

(** [bytes], as returned by [audio_value.getvalue()]. *)
Definition bytes := list Byte.byte.

#[global] Instance byte_eq_dec : EqDecision Byte.byte := Byte.byte_eq_dec.

(** Truthiness of a [str]: only the empty string is falsy. *)
Definition truthy (s : string) : bool :=
  match s with
  | EmptyString => false
  | String _ _ => true
  end.

(** Truthiness of the value of [st.chat_input]: [None] or a [str]. *)
Definition truthy_input (u : option string) : bool :=
  match u with
  | None => false
  | Some s => truthy s
  end.

(** [str(n)] for an [int]. *)
Definition str_of_int (n : Z) : string := NilZero.string_of_int (Z.to_int n).

(** The line feed of ["\n"]. *)
Definition nl : string := String (ascii_of_nat 10) EmptyString.

(** An instance of [Exception]; only [str(e)] is ever observed. *)
Inductive exn := Exception (str : string).

Definition str_of_exn (e : exn) : string :=
  match e with Exception s => s end.

(** What a call into a library reports back: a value or a raised
    [Exception]. *)
Inductive pyresult (A : Type) :=
| Returns (a : A)
| Raises (e : exn).
Arguments Returns {A} a.
Arguments Raises {A} e.

(** What [message.content] of a decoded reply may hold.  The script never
    checks it: the value is returned, bound to the [INSERT] and handed to
    [st.markdown] as it is.  Besides a [str] it may be [None] (JSON
    [null]), a number or boolean, or a list or dictionary.  A number
    carries its [repr] and the text SQLite keeps for it in a TEXT column;
    a list or dictionary carries its [repr] and the exception sqlite3
    raises when asked to bind it. *)
Inductive pyvalue :=
| PyStr (s : string)
| PyNone
| PyNumber (shown stored : string)
| PyOther (shown : string) (unsupported : exn).

(** The exception sqlite3 raises when the value is bound to a [?]. *)
Definition binding_error (v : pyvalue) : option exn :=
  match v with
  | PyOther _ e => Some e
  | _ => None
  end.

(** What a TEXT column holds once the value is bound: [None] is NULL. *)
Definition column_text (v : pyvalue) : option string :=
  match v with
  | PyStr s => Some s
  | PyNone => None
  | PyNumber _ stored => Some stored
  | PyOther _ _ => None
  end.

(** ** Session state and the [messages] table *)

Inductive Role := Doctor | Patient.

Definition role_str (r : Role) : string :=
  match r with
  | Doctor => "Doctor"
  | Patient => "Patient"
  end.

Inductive Lang := English | Spanish | French | Hindi | Mandarin.

Definition lang_str (l : Lang) : string :=
  match l with
  | English => "English"
  | Spanish => "Spanish"
  | French => "French"
  | Hindi => "Hindi"
  | Mandarin => "Mandarin"
  end.

(** [st.session_state]: the two keys the script initialises. *)
Record SessionState := mkSession {
  ss_role : Role;
  last_processed_audio : option bytes
}.

Definition initial_session : SessionState :=
  {| ss_role := Doctor; last_processed_audio := None |}.

(** One row of [messages].  [translated_text] is [None] when the column
    is NULL.  [timestamp] is the reading of the store's clock at insert
    time, counted in whole seconds: [CURRENT_TIMESTAMP] yields the
    fixed-width text [YYYY-MM-DD HH:MM:SS], whose text order is the order
    of these readings. *)
Record Row := mkRow {
  row_id : Z;
  room_id : string;
  role : string;
  original_text : string;
  translated_text : option string;
  target_lang : string;
  has_audio : bool;
  audio_bytes : option bytes;
  timestamp : Z
}.

(** The seven values bound to the [?] of the [INSERT]; the fourth is
    whatever [translate_text] returned. *)
Record InsertParams := mkParams {
  p_room_id : string;
  p_role : string;
  p_original_text : string;
  p_translated_text : pyvalue;
  p_target_lang : string;
  p_has_audio : bool;
  p_audio_bytes : option bytes
}.

(** The table in rowid order, and the [AUTOINCREMENT] counter SQLite keeps
    in [sqlite_sequence]. *)
Record Database := mkDb {
  messages : list Row;
  sqlite_sequence : Z
}.

Definition empty_db : Database := {| messages := []; sqlite_sequence := 0 |}.

Definition stored_row (new_id now : Z) (p : InsertParams) : Row :=
  {| row_id := new_id;
     room_id := p_room_id p;
     role := p_role p;
     original_text := p_original_text p;
     translated_text := column_text (p_translated_text p);
     target_lang := p_target_lang p;
     has_audio := p_has_audio p;
     audio_bytes := p_audio_bytes p;
     timestamp := now |}.

(** [INSERT INTO messages (...) VALUES (?, ?, ?, ?, ?, ?, ?)] followed by
    [conn.commit()]: the store assigns [id] and [timestamp]. *)
Definition insert_message (now : Z) (p : InsertParams) (d : Database) : Database :=
  let new_id := sqlite_sequence d + 1 in
  {| messages := messages d ++ [stored_row new_id now p];
     sqlite_sequence := new_id |}.

Record World := mkWorld {
  session : SessionState;
  db : Database
}.

(** ** Requests sent to the hosted model *)

(** One [{"role": ..., "content": ...}] dictionary. *)
Record ChatMessage := mkMsg {
  msg_role : string;
  msg_content : string
}.

(** [InferenceClient(model=, token=).chat_completion(messages=,
    max_tokens=, temperature=)]. *)
Record ClientCall := mkCall {
  cc_model : string;
  cc_token : string;
  cc_messages : list ChatMessage;
  cc_max_tokens : Z;
  cc_temperature : Q
}.

(** The JSON body of the raw request. *)
Record Payload := mkPayload {
  pl_model : string;
  pl_messages : list ChatMessage;
  pl_max_tokens : Z;
  pl_temperature : Q
}.

(** [requests.post(api_url, headers=headers, json=payload)]. *)
Record HttpRequest := mkHttp {
  http_url : string;
  http_headers : list (string * string);
  http_json : Payload
}.

(** The [requests.Response] fields the script reads.  [json_content] is
    the outcome of [response.json()['choices'][0]['message']['content']]:
    decoding or any of the subscripts may raise; otherwise it is whatever
    value the body holds there. *)
Record Response := mkResponse {
  status_code : Z;
  text : string;
  json_content : pyresult pyvalue
}.

(** ** Environment *)

(** [client_chat] answers the primary call with the [message.content] of
    each returned choice (or raises); [http_post] answers the raw request;
    [now] is the clock reading used by [CURRENT_TIMESTAMP]; [storage] is
    [Some e] when the store is unavailable and SQLite raises [e] on the
    [INSERT]. *)
Record Env := mkEnv {
  client_chat : ClientCall → pyresult (list pyvalue);
  http_post : HttpRequest → pyresult Response;
  now : Z;
  storage : option exn
}.

(** ** Effects *)

Inductive Event :=
| StError (msg : string)
| StWarning (msg : string)
| StMarkdown (body : pyvalue)
| ClientChatCompletion (c : ClientCall)
| RequestsPost (r : HttpRequest)
| SessionAssignAudio (b : bytes)
| ExecuteInsert (p : InsertParams)
| Commit (r : Row).

Inductive abrupt :=
| Raised (e : exn)
| StopException
| RerunException.

Inductive completion (A : Type) :=
| Normal (a : A)
| Abrupt (s : abrupt).
Arguments Normal {A} a.
Arguments Abrupt {A} s.

Record Run (A : Type) := mkRun {
  events : list Event;
  world : World;
  outcome : completion A
}.
Arguments mkRun {A} events world outcome.
Arguments events {A} r.
Arguments world {A} r.
Arguments outcome {A} r.

Definition Py (A : Type) : Type := World → Run A.

Definition ret {A} (a : A) : Py A :=
  λ w, mkRun [] w (Normal a).

Definition bind {A B} (m : Py A) (k : A → Py B) : Py B :=
  λ w,
    let r := m w in
    match outcome r with
    | Normal a =>
        let r' := k a (world r) in
        mkRun (events r ++ events r') (world r') (outcome r')
    | Abrupt s => mkRun (events r) (world r) (Abrupt s)
    end.

#[global] Instance py_ret : MRet Py := @ret.
#[global] Instance py_bind : MBind Py := λ A B k m, bind m k.

Definition emit (e : Event) : Py unit :=
  λ w, mkRun [e] w (Normal tt).

Definition throw {A} (s : abrupt) : Py A :=
  λ w, mkRun [] w (Abrupt s).

(** The value or exception a library call reports, after logging the call. *)
Definition perform {A} (e : Event) (r : pyresult A) : Py A :=
  emit e;;
  match r with
  | Returns a => ret a
  | Raises x => throw (Raised x)
  end.

(** [try: body  except Exception as e: handler(e)].  The control-flow
    exceptions of [st.stop()] and [st.rerun()] are not [Exception]s and
    pass through. *)
Definition try_except {A} (body : Py A) (handler : exn → Py A) : Py A :=
  λ w,
    let r := body w in
    match outcome r with
    | Abrupt (Raised e) =>
        let r' := handler e (world r) in
        mkRun (events r ++ events r') (world r') (outcome r')
    | _ => r
    end.

Definition get_session : Py SessionState :=
  λ w, mkRun [] w (Normal (session w)).

(** [st.session_state.last_processed_audio = b]. *)
Definition set_last_processed_audio (b : bytes) : Py unit :=
  λ w,
    mkRun [SessionAssignAudio b]
      {| session := {| ss_role := ss_role (session w);
                       last_processed_audio := Some b |};
         db := db w |}
      (Normal tt).

(** [st.session_state.role = role]. *)
Definition set_role (r : Role) : Py unit :=
  λ w,
    mkRun []
      {| session := {| ss_role := r;
                       last_processed_audio := last_processed_audio (session w) |};
         db := db w |}
      (Normal tt).

Definition st_error (msg : string) : Py unit := emit (StError msg).
Definition st_warning (msg : string) : Py unit := emit (StWarning msg).
Definition st_markdown (body : pyvalue) : Py unit := emit (StMarkdown body).
Definition st_stop {A} : Py A := throw StopException.
Definition st_rerun {A} : Py A := throw RerunException.

(** The exception the [INSERT] ends in, if any: sqlite3 binds the
    parameters before it touches the store, so a value it cannot bind is
    reported first. *)
Definition insert_failure (env : Env) (p : InsertParams) : option exn :=
  match binding_error (p_translated_text p) with
  | Some e => Some e
  | None => storage env
  end.

(** [c.execute(INSERT ...)] then [conn.commit()]. *)
Definition execute_insert (env : Env) (p : InsertParams) : Py unit :=
  emit (ExecuteInsert p);;
  match insert_failure env p with
  | Some e => throw (Raised e)
  | None =>
      λ w,
        let d := insert_message (now env) p (db w) in
        mkRun [Commit (stored_row (sqlite_sequence d) (now env) p)]
          {| session := session w; db := d |} (Normal tt)
  end.

(** ** The text oracle: [get_llm_response] *)

Definition REPO_ID : string := "Qwen/Qwen2.5-7B-Instruct".

Definition MAX_TOKENS : Z := 500.

(** The literal [0.3]. *)
Definition TEMPERATURE : Q := Qmake 3 10.

(** [response.choices[0].message.content]: indexing an empty list raises
    [IndexError]. *)
Definition first_choice (choices : list pyvalue) : Py pyvalue :=
  match choices with
  | c :: _ => mret c
  | [] => throw (Raised (Exception "list index out of range"))
  end.

Definition QUOTA_MESSAGE : string :=
  "Error: Free Tier Limit Reached (402). Try a new HF Token.".

Definition api_error_message (status : Z) (body : string) : string :=
  "API Error " +:+ str_of_int status +:+ ": " +:+ body.

Definition critical_error_message (e : exn) : string :=
  "Critical Error: " +:+ str_of_exn e.

Definition api_url : string :=
  "https://api-inference.huggingface.co/models/" +:+ REPO_ID +:+ "/v1/chat/completions".

Definition primary_call (messages : list ChatMessage) (api_key : string) : ClientCall :=
  {| cc_model := REPO_ID;
     cc_token := api_key;
     cc_messages := messages;
     cc_max_tokens := MAX_TOKENS;
     cc_temperature := TEMPERATURE |}.

Definition fallback_request (messages : list ChatMessage) (api_key : string) : HttpRequest :=
  {| http_url := api_url;
     http_headers := [("Authorization", "Bearer " +:+ api_key);
                      ("Content-Type", "application/json")];
     http_json := {| pl_model := REPO_ID;
                     pl_messages := messages;
                     pl_max_tokens := MAX_TOKENS;
                     pl_temperature := TEMPERATURE |} |}.

Definition get_llm_response (env : Env) (messages : list ChatMessage) (api_key : string)
  : Py pyvalue :=
  try_except
    (* 1. Try Standard Client *)
    (let call := primary_call messages api_key in
     choices ← perform (ClientChatCompletion call) (client_chat env call);
     first_choice choices)
    (λ e,
       (* 2. Raw HTTP Fallback *)
       try_except
         (let req := fallback_request messages api_key in
          response ← perform (RequestsPost req) (http_post env req);
          if Z.eqb (status_code response) 200 then
            match json_content response with
            | Returns content => mret content
            | Raises x => throw (Raised x)
            end
          else if Z.eqb (status_code response) 402 then
            mret (PyStr QUOTA_MESSAGE)
          else
            mret (PyStr (api_error_message (status_code response) (text response))))
         (λ inner_e, mret (PyStr (critical_error_message inner_e)))).

(** ** [translate_text] and [generate_summary] *)

Definition SENTINEL : string := "[Audio Message Attached]".

Definition translate_instruction (source_role target_lang : string) : string :=
  nl +:+ "    You are a professional medical interpreter. Translate the "
     +:+ source_role +:+ "'s input into " +:+ target_lang +:+ ". "
  +:+ nl +:+ "    Use natural, spoken language that a normal person would use. "
  +:+ nl +:+ "    Avoid poetic, formal, or financial vocabulary (e.g., do not use 'giravat' for upset stomach)."
  +:+ nl +:+ "    Output ONLY the translation."
  +:+ nl +:+ "    ".

Definition translate_text (env : Env) (text source_role target_lang api_key : string)
  : Py pyvalue :=
  if decide (text = SENTINEL) then mret (PyStr text)
  else
    let system_instruction := translate_instruction source_role target_lang in
    let messages := [ {| msg_role := "system"; msg_content := system_instruction |};
                      {| msg_role := "user"; msg_content := text |} ] in
    get_llm_response env messages api_key.

Definition summary_instruction : string :=
  "Summarize the following Doctor-Patient conversation. Format output with headers: 1. Symptoms, 2. Diagnoses, 3. Medications, 4. Follow-up Actions.".

Definition generate_summary (env : Env) (history_text api_key : string) : Py pyvalue :=
  let messages := [ {| msg_role := "system"; msg_content := summary_instruction |};
                    {| msg_role := "user"; msg_content := history_text |} ] in
  get_llm_response env messages api_key.

(** ** The two queries *)

(** SQL leaves undefined the order of the rows of a [SELECT] without
    [ORDER BY], and the relative order of rows whose [ORDER BY] keys are
    equal.  As a statement, a query is therefore a relation between the
    table and the frames it may return.  SQLite itself, on a table with
    no index but the rowid, scans the rows in rowid order and sorts them
    with a sort that keeps rows with equal keys in scan order: the reads
    [read_summary_rows] and [read_history] below. *)

(** [WHERE room_id = ?]: text equality under the default collation. *)
Definition in_room (r : string) (m : Row) : Prop := room_id m = r.

#[global] Instance in_room_dec r m : Decision (in_room r m).
Proof. unfold in_room. apply _. Defined.

(** The rows of a room in rowid order: what a table scan yields. *)
Definition scan_room (r : string) (d : Database) : list Row :=
  filter (in_room r) (messages d).

Definition ts_le (a b : Row) : Prop := timestamp a ≤ timestamp b.

#[global] Instance ts_le_dec a b : Decision (ts_le a b).
Proof. unfold ts_le. apply _. Defined.

(** The columns the summary query selects. *)
Definition turn (m : Row) : string * string := (role m, original_text m).

(** [SELECT role, original_text FROM messages WHERE room_id = ?].  No
    [ORDER BY]: the statement admits the selected rows in any order. *)
Definition summary_query (d : Database) (r : string) (df : list (string * string)) : Prop :=
  ∃ rows, rows ≡ₚ scan_room r d ∧ df = turn <$> rows.

(** [SELECT * FROM messages WHERE room_id = ? ORDER BY timestamp ASC]:
    the selected rows, each next one no earlier than the one before; the
    statement says nothing about rows with the same [timestamp]. *)
Definition history_query (d : Database) (r : string) (df_msgs : list Row) : Prop :=
  df_msgs ≡ₚ scan_room r d ∧ Sorted ts_le df_msgs.

(** Insertion of a row behind every row that is no later: the stable
    sort by [timestamp]. *)
Fixpoint insert_by_timestamp (m : Row) (l : list Row) : list Row :=
  match l with
  | [] => [m]
  | x :: l' =>
      if decide (ts_le x m) then x :: insert_by_timestamp m l'
      else m :: x :: l'
  end.

Definition order_by_timestamp (l : list Row) : list Row :=
  foldl (λ acc m, insert_by_timestamp m acc) [] l.

(** The two reads as SQLite performs them: a rowid-order scan, stably
    sorted when an [ORDER BY] asks for it. *)
Definition read_summary_rows (d : Database) (r : string) : list (string * string) :=
  turn <$> scan_room r d.

Definition read_history (d : Database) (r : string) : list Row :=
  order_by_timestamp (scan_room r d).

(** ** The sidebar's summary handler *)

(** [f"{row['role']}: {row['original_text']}"], joined with ["\n"]. *)
Definition render_turn (t : string * string) : string :=
  fst t +:+ ": " +:+ snd t.

Definition full_text (df : list (string * string)) : string :=
  String.concat nl (render_turn <$> df).

(** The body of [if st.button("Generate Medical Summary")], given the
    frame [df] the query returned. *)
Definition summary_handler (env : Env) (hf_api_key : string) (df : list (string * string))
  : Py unit :=
  if negb (truthy hf_api_key) then
    st_error "Please provide an API Key first."
  else
    match df with
    | _ :: _ =>
        summary ← generate_summary env (full_text df) hf_api_key;
        st_markdown summary
    | [] => st_warning "No history in this room."
    end.

(** ** The input logic handler *)

(** What one run of the script reads from its widgets. *)
Record Input := mkInput {
  user_input : option string;
  audio_value : option bytes;
  hf_api_key : string;
  sidebar_room_id : string;
  role_radio : Role;
  sidebar_target_lang : Lang
}.

Record Locals := mkLocals {
  current_text : string;
  audio_data : option bytes;
  has_audio_flag : bool;
  should_save : bool
}.

Definition initial_locals : Locals :=
  {| current_text := ""; audio_data := None; has_audio_flag := false; should_save := false |}.

(** 1. Handle Audio with Deduplication Loop Fix *)
Definition handle_audio (inp : Input) (l : Locals) : Py Locals :=
  match audio_value inp with
  | Some current_audio_bytes =>
      ss ← get_session;
      if decide (last_processed_audio ss ≠ Some current_audio_bytes) then
        set_last_processed_audio current_audio_bytes;;
        mret {| current_text :=
                  if negb (truthy_input (user_input inp)) then SENTINEL
                  else current_text l;
                audio_data := Some current_audio_bytes;
                has_audio_flag := true;
                should_save := true |}
      else
        mret {| current_text := current_text l;
                audio_data := audio_data l;
                has_audio_flag := has_audio_flag l;
                should_save := false |}
  | None => mret l
  end.

(** 2. Handle Text *)
Definition handle_text (inp : Input) (l : Locals) : Locals :=
  match user_input inp with
  | Some s =>
      if truthy s then
        {| current_text := s;
           audio_data := audio_data l;
           has_audio_flag := has_audio_flag l;
           should_save := true |}
      else l
  | None => l
  end.

(** 3. Execute Save & Translate *)
Definition save_and_translate (env : Env) (inp : Input) (l : Locals) : Py unit :=
  if should_save l && truthy (current_text l) then
    ss ← get_session;
    translated ← translate_text env (current_text l) (role_str (ss_role ss))
                   (lang_str (sidebar_target_lang inp)) (hf_api_key inp);
    execute_insert env
      {| p_room_id := sidebar_room_id inp;
         p_role := role_str (ss_role ss);
         p_original_text := current_text l;
         p_translated_text := translated;
         p_target_lang := lang_str (sidebar_target_lang inp);
         p_has_audio := has_audio_flag l;
         p_audio_bytes := audio_data l |};;
    st_rerun
  else mret tt.

Definition CONFIG_ERROR : string := "⚠️ Please configure API Token.".

Definition logic_handler (env : Env) (inp : Input) : Py unit :=
  if truthy_input (user_input inp) || bool_decide (is_Some (audio_value inp)) then
    (if negb (truthy (hf_api_key inp)) then
       st_error CONFIG_ERROR;; st_stop
     else mret tt);;
    l ← handle_audio inp initial_locals;
    save_and_translate env inp (handle_text inp l)
  else mret tt.

(** One run of the script as far as it changes the world: the sidebar
    stores the selected role, then the logic handler runs.  (The summary
    handler and the display loop, which come in between, only read; the
    logic handler is reached when the display loop has not raised.) *)
Definition script_run (env : Env) (inp : Input) : Py unit :=
  set_role (role_radio inp);;
  logic_handler env inp.

Definition initial_world : World :=
  {| session := initial_session; db := empty_db |}.

(** The databases the script can produce, with the log of everything done
    to get there.  Every run may belong to a different browser session,
    so the session state a run starts from is arbitrary; runs are
    serialised (single writer). *)
Inductive history : Database → list Event → Prop :=
| history_empty : history empty_db []
| history_run d log s env inp :
    history d log →
    history (db (world (script_run env inp {| session := s; db := d |})))
            (log ++ events (script_run env inp {| session := s; db := d |})).

(** The rows committed so far, oldest first. *)
Definition committed (log : list Event) : list Row :=
  omap (λ e, match e with Commit r => Some r | _ => None end) log.

(** The calls made to the hosted model. *)
Definition is_oracle_call (e : Event) : bool :=
  match e with
  | ClientChatCompletion _ | RequestsPost _ => true
  | _ => false
  end.

Definition is_insert (e : Event) : bool :=
  match e with
  | ExecuteInsert _ | Commit _ => true
  | _ => false
  end.

(** ** What the oracles compute, as plain functions *)

(** What the primary path ends in: the content of the first choice, or
    the exception that sends control to the fallback. *)
Definition primary_outcome (env : Env) (messages : list ChatMessage) (api_key : string)
  : pyresult pyvalue :=
  match client_chat env (primary_call messages api_key) with
  | Returns (c :: _) => Returns c
  | Returns [] => Raises (Exception "list index out of range")
  | Raises e => Raises e
  end.

(** The value the fallback path ends in. *)
Definition fallback_answer (r : pyresult Response) : pyvalue :=
  match r with
  | Raises x => PyStr (critical_error_message x)
  | Returns resp =>
      if Z.eqb (status_code resp) 200 then
        match json_content resp with
        | Returns content => content
        | Raises x => PyStr (critical_error_message x)
        end
      else if Z.eqb (status_code resp) 402 then PyStr QUOTA_MESSAGE
      else PyStr (api_error_message (status_code resp) (text resp))
  end.

Definition oracle_answer (env : Env) (messages : list ChatMessage) (api_key : string)
  : pyvalue :=
  match primary_outcome env messages api_key with
  | Returns content => content
  | Raises _ => fallback_answer (http_post env (fallback_request messages api_key))
  end.

Definition oracle_trace (env : Env) (messages : list ChatMessage) (api_key : string)
  : list Event :=
  ClientChatCompletion (primary_call messages api_key) ::
  match primary_outcome env messages api_key with
  | Returns _ => []
  | Raises _ => [RequestsPost (fallback_request messages api_key)]
  end.

(** The events and the answer of [translate_text]. *)
Definition translate_messages (text source_role target_lang : string) : list ChatMessage :=
  [ {| msg_role := "system";
       msg_content := translate_instruction source_role target_lang |};
    {| msg_role := "user"; msg_content := text |} ].

Definition translate_trace (env : Env) (text source_role target_lang api_key : string)
  : list Event :=
  if decide (text = SENTINEL) then []
  else oracle_trace env (translate_messages text source_role target_lang) api_key.

Definition translate_answer (env : Env) (text source_role target_lang api_key : string)
  : pyvalue :=
  if decide (text = SENTINEL) then PyStr text
  else oracle_answer env (translate_messages text source_role target_lang) api_key.

(** ** What the logic handler computes, as plain functions *)

(** The recording a run takes as new, given the session's fingerprint. *)
Definition fresh_audio (last : option bytes) (inp : Input) : option bytes :=
  match audio_value inp with
  | Some b => if decide (last ≠ Some b) then Some b else None
  | None => None
  end.

Definition locals_after_audio (last : option bytes) (inp : Input) : Locals :=
  match fresh_audio last inp with
  | Some b =>
      {| current_text := if negb (truthy_input (user_input inp)) then SENTINEL else "";
         audio_data := Some b;
         has_audio_flag := true;
         should_save := true |}
  | None => initial_locals
  end.

Definition decided_locals (last : option bytes) (inp : Input) : Locals :=
  handle_text inp (locals_after_audio last inp).

Definition session_after_audio (s : SessionState) (inp : Input) : SessionState :=
  match fresh_audio (last_processed_audio s) inp with
  | Some b => {| ss_role := ss_role s; last_processed_audio := Some b |}
  | None => s
  end.

Definition audio_events (s : SessionState) (inp : Input) : list Event :=
  match fresh_audio (last_processed_audio s) inp with
  | Some b => [SessionAssignAudio b]
  | None => []
  end.

(** The tuple handed to the [INSERT] when the run saves. *)
Definition insert_params (env : Env) (s : SessionState) (inp : Input) : InsertParams :=
  let l := decided_locals (last_processed_audio s) inp in
  {| p_room_id := sidebar_room_id inp;
     p_role := role_str (ss_role s);
     p_original_text := current_text l;
     p_translated_text :=
       translate_answer env (current_text l) (role_str (ss_role s))
         (lang_str (sidebar_target_lang inp)) (hf_api_key inp);
     p_target_lang := lang_str (sidebar_target_lang inp);
     p_has_audio := has_audio_flag l;
     p_audio_bytes := audio_data l |}.

(** Whether the run reaches the [INSERT]. *)
Definition saves (s : SessionState) (inp : Input) : bool :=
  truthy (hf_api_key inp) &&
  (truthy_input (user_input inp) || bool_decide (is_Some (fresh_audio (last_processed_audio s) inp))).

(** ** Predicates used in the statements *)


(** An event that neither calls the hosted model nor touches the table. *)
Definition quiet (e : Event) : Prop := is_oracle_call e = false ∧ is_insert e = false.

Definition not_session_assign (e : Event) : Prop := ∀ b, e ≠ SessionAssignAudio b.

(** What follows the [INSERT] in the log. *)
Definition commit_tail (env : Env) (d : Database) (p : InsertParams) : list Event :=
  match insert_failure env p with
  | None => [Commit (stored_row (sqlite_sequence d + 1) (now env) p)]
  | Some _ => []
  end.

(** The session once the sidebar has stored the selected role. *)
Definition sidebar_session (inp : Input) (w : World) : SessionState :=
  {| ss_role := role_radio inp;
     last_processed_audio := last_processed_audio (session w) |}.

(** The order of a transcript: by timestamp, then by id. *)
Definition transcript_lt (a b : Row) : Prop :=
  timestamp a < timestamp b ∨ (timestamp a = timestamp b ∧ row_id a < row_id b).

Definition id_lt (a b : Row) : Prop := row_id a < row_id b.

(** ** Scenarios *)

(** A network whose primary path answers [reply], a clock reading, and a
    store that accepts writes. *)
Definition answering (reply : string) (clock : Z) : Env :=
  {| client_chat := λ _, Returns [PyStr reply];
     http_post := λ _, Raises (Exception "not reached");
     now := clock;
     storage := None |}.

(** The client library raises and the raw request comes back with 402. *)
Definition quota_exhausted (clock : Z) : Env :=
  {| client_chat := λ _, Raises (Exception "402 Client Error: Payment Required");
     http_post := λ _, Returns {| status_code := 402;
                                  text := "Payment Required";
                                  json_content := Raises (Exception "Expecting value") |};
     now := clock;
     storage := None |}.

(** The network answers but SQLite raises on the [INSERT]. *)
Definition disk_full (clock : Z) : Env :=
  {| client_chat := λ _, Returns [PyStr "hola"];
     http_post := λ _, Raises (Exception "not reached");
     now := clock;
     storage := Some (Exception "database or disk is full") |}.

(** The hosted model answers with a [null] content. *)
Definition null_reply (clock : Z) : Env :=
  {| client_chat := λ _, Returns [PyNone];
     http_post := λ _, Raises (Exception "not reached");
     now := clock;
     storage := None |}.

(** The hosted model answers with a list of content parts. *)
Definition list_reply (clock : Z) : Env :=
  {| client_chat :=
       λ _, Returns [PyOther "[{'type': 'text', 'text': 'hola'}]"
                       (Exception "Error binding parameter 4: type 'list' is not supported")];
     http_post := λ _, Raises (Exception "not reached");
     now := clock;
     storage := None |}.

Definition typing (rm : string) (who : Role) (s : string) : Input :=
  {| user_input := Some s;
     audio_value := None;
     hf_api_key := "hf_demo";
     sidebar_room_id := rm;
     role_radio := who;
     sidebar_target_lang := Spanish |}.

Definition clip : bytes := [Byte.x01; Byte.x02].

Definition recording (rm : string) (who : Role) (b : bytes) : Input :=
  {| user_input := None;
     audio_value := Some b;
     hf_api_key := "hf_demo";
     sidebar_room_id := rm;
     role_radio := who;
     sidebar_target_lang := Spanish |}.


Definition without_key (inp : Input) : Input :=
  {| user_input := user_input inp;
     audio_value := audio_value inp;
     hf_api_key := "";
     sidebar_room_id := sidebar_room_id inp;
     role_radio := role_radio inp;
     sidebar_target_lang := sidebar_target_lang inp |}.

(** Two messages typed into Room-1 within the same second. *)
Definition tie_run1 : Run unit :=
  script_run (answering "hola" 100) (typing "Room-1" Doctor "hello") initial_world.

Definition tie_run2 : Run unit :=
  script_run (answering "gracias" 100) (typing "Room-1" Patient "thanks") (world tie_run1).

Definition tie_db : Database := db (world tie_run2).

Definition tie_log : list Event := events tie_run1 ++ events tie_run2.

(** A message typed into Room-1 while the hosted model answers with a
    [null] content. *)
Definition null_run : Run unit :=
  script_run (null_reply 100) (typing "Room-1" Doctor "hello") initial_world.

Definition null_db : Database := db (world null_run).

(** Two messages in Room-1, then one in Room-2, a second apart. *)
Definition ward_run1 : Run unit :=
  script_run (answering "Me duele el estómago" 100)
    (typing "Room-1" Doctor "My stomach hurts") initial_world.

Definition ward_run2 : Run unit :=
  script_run (answering "Desde ayer" 101)
    (typing "Room-1" Patient "Since yesterday") (world ward_run1).

Definition ward_run3 : Run unit :=
  script_run (answering "Buenos días" 102)
    (typing "Room-2" Doctor "Good morning") (world ward_run2).

Definition ward_db : Database := db (world ward_run3).

Definition ward_log : list Event :=
  (events ward_run1 ++ events ward_run2) ++ events ward_run3.

(** Two messages in Room-1 with the clock set back between them. *)
Definition regress_run1 : Run unit :=
  script_run (answering "¿Dónde le duele?" 200)
    (typing "Room-1" Doctor "Where does it hurt?") initial_world.

Definition regress_run2 : Run unit :=
  script_run (answering "Me duele el estómago" 100)
    (typing "Room-1" Patient "My stomach hurts") (world regress_run1).

Definition regress_db : Database := db (world regress_run2).

Definition regress_log : list Event := events regress_run1 ++ events regress_run2.

(** ** The sidebar's key handling *)

(** [env_key = os.getenv("HF_API_KEY")], then [st.secrets] when that is
    falsy, then the password field.  [getenv] is [None] when the variable
    is unset; [secrets] is the outcome of looking the key up in
    [st.secrets]: it raises when no secrets file exists (the bare
    [except] swallows that), returns [None] when the key is not there.
    The result is [hf_api_key] and the text of [st.success], if shown. *)
Definition resolve_key (getenv : option string) (secrets : pyresult (option string))
    (typed : string) : string * option string :=
  let '(env_key, key_source) :=
    if negb (truthy_input getenv) then
      match secrets with
      | Returns (Some v) => (Some v, "Secrets")
      | Returns None => (getenv, ".env")
      | Raises _ => (getenv, ".env")
      end
    else (getenv, ".env") in
  match env_key with
  | Some k =>
      if truthy k then (k, Some ("✅ Key loaded from " +:+ key_source))
      else (typed, None)
  | None => (typed, None)
  end.

(** ** The display loop *)

(** What the loop puts on the page for one row. *)
Inductive Widget :=
| Markdown (body : string)
| Info (body : string)
| Audio (data : bytes) (format : string)
| Caption (ts : Z).

(** One [st.chat_message(name, avatar=avatar)] block. *)
Record ChatMessageBlock := mkBlock {
  block_name : string;
  block_avatar : string;
  block_body : list Widget
}.

(** [needle in hay] on [str]. *)
Fixpoint contains (needle hay : string) : bool :=
  String.prefix needle hay ||
  match hay with
  | EmptyString => false
  | String _ hay' => contains needle hay'
  end.

(** Truthiness of [row['audio_bytes']]: [None] and [b""] are falsy. *)
Definition truthy_bytes (b : option bytes) : bool :=
  match b with
  | Some (_ :: _) => true
  | _ => false
  end.

(** [AttributeError] of [None.lower()] and [TypeError] of [pattern.sub]
    on [None], as CPython words them. *)
Definition ATTRIBUTE_ERROR : exn :=
  Exception "'NoneType' object has no attribute 'lower'".

Definition TYPE_ERROR : exn :=
  Exception "expected string or bytes-like object, got 'NoneType'".

(** The test that makes the loop [continue]: a search is active and its
    lower-cased text occurs in neither lower-cased column.  [and] looks at
    [row['translated_text'].lower()] only when the text is not found in
    the first column, and that raises when the translation is NULL.
    [lower] stands for [str.lower]. *)
Definition filtered_out (lower : string → string) (search_query : string) (row : Row)
  : pyresult bool :=
  if truthy search_query then
    if negb (contains (lower search_query) (lower (original_text row))) then
      match translated_text row with
      | Some t => Returns (negb (contains (lower search_query) (lower t)))
      | None => Raises ATTRIBUTE_ERROR
      end
    else Returns false
  else Returns false.

(** What an f-string shows for a column that may be NULL. *)
Definition shown_text (t : option string) : string :=
  match t with
  | Some s => s
  | None => "None"
  end.

(** The body of the loop for a row that is not skipped: the block that is
    opened, what is written into it, and the exception that ends the loop
    there, if any.  With a search active the highlight pattern is applied
    to both columns before anything is written, and raises on a NULL
    translation.  [re_sub q t] stands for
    [re.compile(re.escape(q), re.IGNORECASE).sub(...)] applied to [t]. *)
Definition display_row (re_sub : string → string → string) (search_query : string)
    (row : Row) : ChatMessageBlock * option exn :=
  let avatar := if decide (role row = "Doctor") then "🧑‍⚕️" else "🤕" in
  let written display_text display_trans :=
    [Markdown ("**" +:+ role row +:+ ":** " +:+ display_text);
     Info ("**Translated (" +:+ target_lang row +:+ "):** " +:+ display_trans)]
    ++ match audio_bytes row with
       | Some data =>
           if has_audio row && truthy_bytes (audio_bytes row)
           then [Audio data "audio/wav"] else []
       | None => []
       end
    ++ [Caption (timestamp row)] in
  if truthy search_query then
    match translated_text row with
    | Some t =>
        ({| block_name := role row;
            block_avatar := avatar;
            block_body := written (re_sub search_query (original_text row))
                                  (re_sub search_query t) |}, None)
    | None =>
        ({| block_name := role row; block_avatar := avatar; block_body := [] |},
         Some TYPE_ERROR)
    end
  else
    ({| block_name := role row;
        block_avatar := avatar;
        block_body := written (original_text row) (shown_text (translated_text row)) |},
     None).

(** [for index, row in df_msgs.iterrows(): ...]: the blocks put on the
    page, and the exception that ended the loop, if any. *)
Fixpoint display_loop (lower : string → string) (re_sub : string → string → string)
    (search_query : string) (df_msgs : list Row) : list ChatMessageBlock * option exn :=
  match df_msgs with
  | [] => ([], None)
  | row :: rest =>
      match filtered_out lower search_query row with
      | Raises e => ([], Some e)
      | Returns true => display_loop lower re_sub search_query rest
      | Returns false =>
          match display_row re_sub search_query row with
          | (block, Some e) => ([block], Some e)
          | (block, None) =>
              let '(blocks, e) := display_loop lower re_sub search_query rest in
              (block :: blocks, e)
          end
      end
  end.

(** The rows the loop goes on to show: the test completes and does not
    make it [continue]. *)
Definition shows (lower : string → string) (search_query : string) (row : Row) : bool :=
  match filtered_out lower search_query row with
  | Returns false => true
  | _ => false
  end.

(** One run of the page from the sidebar down: the sidebar stores the
    selected role, the room is read and displayed, and the logic handler
    runs once the display loop is through; an exception raised in the
    loop ends the run there. *)
Definition page_run (lower : string → string) (re_sub : string → string → string)
    (search_query : string) (env : Env) (inp : Input) (w : World)
  : list ChatMessageBlock * Run unit :=
  let '(blocks, e) :=
    display_loop lower re_sub search_query (read_history (db w) (sidebar_room_id inp)) in
  match e with
  | Some e => (blocks, (set_role (role_radio inp);; throw (Raised e)) w)
  | None => (blocks, script_run env inp w)
  end.

(** The caption of a block: the timestamp of the row it shows. *)
Definition block_caption (b : ChatMessageBlock) : list Z :=
  omap (λ w, match w with Caption ts => Some ts | _ => None end) (block_body b).

Definition block_audio (b : ChatMessageBlock) : list bytes :=
  omap (λ w, match w with Audio data _ => Some data | _ => None end) (block_body b).

(** ** More predicates used in the statements *)

Definition ts_lt (a b : Row) : Prop := timestamp a < timestamp b.

Definition LANGUAGES : list string :=
  ["English"; "Spanish"; "French"; "Hindi"; "Mandarin"].

(** What the [INSERT] of the logic handler guarantees about a row. *)
Definition row_well_formed (m : Row) : Prop :=
  truthy (original_text m) = true ∧
  (role m = "Doctor" ∨ role m = "Patient") ∧
  target_lang m ∈ LANGUAGES ∧
  (has_audio m = true ↔ is_Some (audio_bytes m)).

Definition oracle_calls (log : list Event) : nat :=
  length (filter (λ e, is_oracle_call e = true) log).

(** * Properties *)

(** ** The oracle always answers *)

Lemma get_llm_response_eq env messages api_key w :
  get_llm_response env messages api_key w
  = mkRun (oracle_trace env messages api_key) w
      (Normal (oracle_answer env messages api_key)).
Proof.
  unfold get_llm_response, oracle_trace, oracle_answer, primary_outcome,
    fallback_answer, try_except, perform, first_choice, emit, throw.
  unfold mbind, py_bind, bind, mret, py_ret, ret; simpl.
  destruct (client_chat env (primary_call messages api_key)) as [[|c cs]|e]; simpl;
    try reflexivity;
    destruct (http_post env (fallback_request messages api_key)) as [resp|x]; simpl;
    try reflexivity;
    destruct (Z.eqb (status_code resp) 200); simpl;
    try (destruct (json_content resp); reflexivity);
    destruct (Z.eqb (status_code resp) 402); reflexivity.
Qed.

Lemma oracle_trace_calls env messages api_key :
  Forall (λ e, is_oracle_call e = true) (oracle_trace env messages api_key).
Proof.
  unfold oracle_trace.
  destruct (primary_outcome env messages api_key); repeat constructor.
Qed.

Lemma translate_text_eq env text source_role target_lang api_key w :
  translate_text env text source_role target_lang api_key w
  = mkRun (translate_trace env text source_role target_lang api_key) w
      (Normal (translate_answer env text source_role target_lang api_key)).
Proof.
  unfold translate_text, translate_trace, translate_answer.
  destruct (decide (text = SENTINEL)); [reflexivity|].
  apply get_llm_response_eq.
Qed.

Lemma translate_trace_calls env text source_role target_lang api_key :
  Forall (λ e, is_oracle_call e = true)
    (translate_trace env text source_role target_lang api_key).
Proof.
  unfold translate_trace.
  destruct (decide (text = SENTINEL)); [constructor | apply oracle_trace_calls].
Qed.

Lemma error_messages_distinct status body e :
  QUOTA_MESSAGE ≠ api_error_message status body ∧
  QUOTA_MESSAGE ≠ critical_error_message e ∧
  api_error_message status body ≠ critical_error_message e.
Proof.
  unfold QUOTA_MESSAGE, api_error_message, critical_error_message.
  repeat split; simpl; discriminate.
Qed.

(** C4, as the code has it.  [get_llm_response] never raises: for every
    list of messages, every key and every behaviour of the network it
    completes normally and leaves the world alone.  When the primary
    client path raises, exactly one raw HTTP request follows it, carrying
    the same model, messages, token and sampling settings to the model's
    endpoint, and a failure there is answered by a string: the quota
    message on status 402, the service-error message on any other status but 200, and the
    critical-error message when the request or the decoding of its body
    raises; the three messages are pairwise different.  A reply that
    carries a content (from the client, or from the raw request with
    status 200) is returned as it is and unchecked, whatever its type. *)
Theorem get_llm_response_never_raises env messages api_key w :
  let run := get_llm_response env messages api_key w in
  let call := primary_call messages api_key in
  let req := fallback_request messages api_key in
  (∃ answer, outcome run = Normal answer ∧ world run = w ∧
     match primary_outcome env messages api_key with
     | Returns content =>
         events run = [ClientChatCompletion call] ∧ answer = content
     | Raises _ =>
         events run = [ClientChatCompletion call; RequestsPost req] ∧
         match http_post env req with
         | Raises x => answer = PyStr (critical_error_message x)
         | Returns resp =>
             (status_code resp = 402 → answer = PyStr QUOTA_MESSAGE) ∧
             (status_code resp ≠ 200 → status_code resp ≠ 402 →
              answer = PyStr (api_error_message (status_code resp) (text resp))) ∧
             (status_code resp = 200 →
              match json_content resp with
              | Returns content => answer = content
              | Raises x => answer = PyStr (critical_error_message x)
              end)
         end
     end) ∧
  (http_url req = "https://api-inference.huggingface.co/models/" +:+ cc_model call
                  +:+ "/v1/chat/completions" ∧
   pl_model (http_json req) = cc_model call ∧
   pl_messages (http_json req) = cc_messages call ∧
   pl_max_tokens (http_json req) = cc_max_tokens call ∧
   pl_temperature (http_json req) = cc_temperature call ∧
   http_headers req !! 0%nat = Some ("Authorization", "Bearer " +:+ cc_token call)) ∧
  (∀ status body e e',
     QUOTA_MESSAGE ≠ api_error_message status body ∧
     QUOTA_MESSAGE ≠ critical_error_message e ∧
     api_error_message status body ≠ critical_error_message e').
Proof.
  intros run call req. subst run.
  rewrite get_llm_response_eq. cbn [outcome world events].
  split; [|split].
  - eexists; split; [reflexivity|]; split; [reflexivity|].
    unfold oracle_trace, oracle_answer.
    destruct (primary_outcome env messages api_key) as [content|e]; [split; reflexivity|].
    split; [reflexivity|]. fold req.
    destruct (http_post env req) as [resp|x]; [|reflexivity].
    unfold fallback_answer.
    repeat split.
    + intros ->. reflexivity.
    + intros H200 H402.
      apply Z.eqb_neq in H200, H402. rewrite H200, H402. reflexivity.
    + intros ->. simpl. destruct (json_content resp); reflexivity.
  - repeat split.
  - intros status body e e'.
    destruct (error_messages_distinct status body e) as (? & ? & _).
    destruct (error_messages_distinct status body e') as (_ & _ & ?).
    auto.
Qed.

(** C8.  Translating the sentinel returns it unchanged for every speaker
    role, target language, key and network behaviour, and performs no
    effect at all: no call reaches the hosted model. *)
Theorem translate_text_sentinel env source_role target_lang api_key w :
  translate_text env "[Audio Message Attached]" source_role target_lang api_key w
  = mkRun [] w (Normal (PyStr "[Audio Message Attached]")).
Proof.
  unfold translate_text.
  destruct (decide ("[Audio Message Attached]" = SENTINEL)) as [_|Hne]; [reflexivity|].
  exfalso. apply Hne. reflexivity.
Qed.

(** ** The logic handler in closed form *)

Ltac unfold_py :=
  unfold mbind, py_bind, bind, mret, py_ret, ret, emit, throw,
    st_error, st_stop, st_rerun, get_session, set_last_processed_audio, set_role;
  cbn [events world outcome session db].

Lemma world_eta w : {| session := session w; db := db w |} = w.
Proof. destruct w; reflexivity. Qed.

Lemma handle_audio_eq inp w :
  handle_audio inp initial_locals w
  = mkRun (audio_events (session w) inp)
      {| session := session_after_audio (session w) inp; db := db w |}
      (Normal (locals_after_audio (last_processed_audio (session w)) inp)).
Proof.
  unfold handle_audio, audio_events, session_after_audio, locals_after_audio, fresh_audio.
  destruct (audio_value inp) as [b|]; unfold_py.
  - destruct (decide (last_processed_audio (session w) ≠ Some b)); unfold_py.
    + reflexivity.
    + rewrite world_eta. reflexivity.
  - rewrite world_eta. reflexivity.
Qed.

Lemma decided_locals_saves s inp :
  truthy (hf_api_key inp) = true →
  (let l := decided_locals (last_processed_audio s) inp in
   should_save l && truthy (current_text l)) = saves s inp.
Proof.
  intros Hkey. unfold saves, decided_locals, handle_text, locals_after_audio.
  rewrite Hkey. cbn [andb].
  destruct (user_input inp) as [[|c u]|]; cbn [truthy_input truthy orb negb];
    destruct (fresh_audio (last_processed_audio s) inp); reflexivity.
Qed.

(** A run with a credential: the audio step, then either nothing more or
    the translation followed by the [INSERT]. *)
Lemma logic_handler_eq env inp w :
  truthy (hf_api_key inp) = true →
  logic_handler env inp w =
    let s := session w in
    let s' := session_after_audio s inp in
    let p := insert_params env s inp in
    if saves s inp then
      let tr := translate_trace env (p_original_text p) (p_role p) (p_target_lang p)
                  (hf_api_key inp) in
      match insert_failure env p with
      | None =>
          mkRun (audio_events s inp ++ tr ++
                 [ExecuteInsert p; Commit (stored_row (sqlite_sequence (db w) + 1) (now env) p)])
            {| session := s'; db := insert_message (now env) p (db w) |}
            (Abrupt RerunException)
      | Some e =>
          mkRun (audio_events s inp ++ tr ++ [ExecuteInsert p])
            {| session := s'; db := db w |} (Abrupt (Raised e))
      end
    else mkRun [] w (Normal tt).
Proof.
  intros Hkey. cbv zeta.
  rewrite <- (decided_locals_saves _ _ Hkey).
  unfold logic_handler. rewrite Hkey. cbn [negb].
  destruct (truthy_input (user_input inp) || bool_decide (is_Some (audio_value inp)))
    eqn:Hany.
  - unfold_py. rewrite handle_audio_eq. cbn [events world outcome].
    unfold save_and_translate. fold (decided_locals (last_processed_audio (session w)) inp).
    assert (Hrole : ss_role (session_after_audio (session w) inp) = ss_role (session w)).
    { unfold session_after_audio.
      destruct (fresh_audio (last_processed_audio (session w)) inp); reflexivity. }
    destruct (should_save (decided_locals (last_processed_audio (session w)) inp)
              && truthy (current_text (decided_locals (last_processed_audio (session w)) inp)))
      eqn:Hsave.
    + unfold_py. rewrite translate_text_eq. cbn [events world outcome].
      unfold execute_insert. unfold_py. rewrite Hrole.
      unfold insert_params. cbn [p_original_text p_role p_target_lang].
      match goal with |- context [insert_failure env ?q] =>
        destruct (insert_failure env q) as [e|] end;
        cbn [events world outcome session db].
      * cbn [app]. rewrite ?app_nil_r. reflexivity.
      * cbn [app]. rewrite ?app_nil_r.
        unfold insert_message. cbn [sqlite_sequence]. reflexivity.
    + unfold_py.
      assert (Hfresh : fresh_audio (last_processed_audio (session w)) inp = None).
      { rewrite (decided_locals_saves _ _ Hkey) in Hsave. unfold saves in Hsave.
        rewrite Hkey in Hsave. cbn [andb] in Hsave.
        apply orb_false_elim in Hsave as [_ Hsave].
        destruct (fresh_audio (last_processed_audio (session w)) inp) as [b|];
          [|reflexivity].
        exfalso. rewrite bool_decide_eq_false in Hsave. apply Hsave. eauto. }
      unfold audio_events, session_after_audio. rewrite Hfresh.
      rewrite world_eta. reflexivity.
  - apply orb_false_elim in Hany as [Htext Haudio].
    assert (Hsave : saves (session w) inp = false).
    { unfold saves, fresh_audio. rewrite Htext.
      destruct (audio_value inp) as [b|].
      - rewrite bool_decide_eq_false in Haudio. exfalso. apply Haudio. eauto.
      - rewrite andb_false_r. reflexivity. }
    rewrite (decided_locals_saves _ _ Hkey). rewrite Hsave. reflexivity.
Qed.

(** A run without a credential. *)
Lemma logic_handler_no_key env inp w :
  truthy (hf_api_key inp) = false →
  logic_handler env inp w =
    if truthy_input (user_input inp) || bool_decide (is_Some (audio_value inp)) then
      mkRun [StError CONFIG_ERROR] w (Abrupt StopException)
    else mkRun [] w (Normal tt).
Proof.
  intros Hkey. unfold logic_handler. rewrite Hkey. cbn [negb].
  destruct (truthy_input (user_input inp) || bool_decide (is_Some (audio_value inp)));
    reflexivity.
Qed.

Lemma run_eta {A} (r : Run A) : mkRun (events r) (world r) (outcome r) = r.
Proof. destruct r; reflexivity. Qed.

(** The world the logic handler starts from once the sidebar has stored
    the selected role. *)
Lemma script_run_eq env inp w :
  script_run env inp w
  = logic_handler env inp
      {| session := {| ss_role := role_radio inp;
                       last_processed_audio := last_processed_audio (session w) |};
         db := db w |}.
Proof.
  unfold script_run. unfold_py. cbn [app]. apply run_eta.
Qed.

Lemma fresh_audio_new last inp b :
  audio_value inp = Some b → last ≠ Some b → fresh_audio last inp = Some b.
Proof.
  intros Ha Hne. unfold fresh_audio. rewrite Ha.
  destruct (decide (last ≠ Some b)); [reflexivity | contradiction].
Qed.

Lemma fresh_audio_old last inp :
  audio_value inp = None ∨ audio_value inp = last → fresh_audio last inp = None.
Proof.
  unfold fresh_audio. intros [Ha|Ha]; rewrite Ha; [reflexivity|].
  destruct last as [b|]; [|reflexivity].
  destruct (decide (Some b ≠ Some b)); [contradiction | reflexivity].
Qed.

(** Simplifies a run with a credential down to the decided case. *)
Ltac decide_run Hkey :=
  rewrite script_run_eq, (logic_handler_eq _ _ _ Hkey);
  unfold saves, insert_params, decided_locals, handle_text, locals_after_audio,
    session_after_audio, audio_events;
  cbn [session db last_processed_audio ss_role];
  rewrite ?Hkey; cbn [andb].

(** Splits on whether the [INSERT] of the goal raises. *)
Ltac case_insert e H :=
  match goal with
  | |- context [insert_failure ?env ?q] =>
      destruct (insert_failure env q) as [e|] eqn:H
  end.

(** ** The controller *)

(** The [INSERT] raises for a value it cannot bind, and otherwise when
    the store fails. *)
Lemma insert_failure_cases env p :
  match insert_failure env p with
  | None => binding_error (p_translated_text p) = None ∧ storage env = None
  | Some e => binding_error (p_translated_text p) = Some e ∨
              (binding_error (p_translated_text p) = None ∧ storage env = Some e)
  end.
Proof.
  unfold insert_failure.
  destruct (binding_error (p_translated_text p)) as [e|]; [left; reflexivity|].
  destruct (storage env) as [e|]; [right|]; split; reflexivity.
Qed.

Lemma insert_failure_bindable env p :
  binding_error (p_translated_text p) = None →
  insert_failure env p = storage env.
Proof. unfold insert_failure. intros ->. reflexivity. Qed.


Lemma translate_answer_sentinel env r l k :
  translate_answer env SENTINEL r l k = PyStr SENTINEL.
Proof.
  unfold translate_answer.
  destruct (decide (SENTINEL = SENTINEL)); [reflexivity|contradiction].
Qed.


(** C9.  An input event that arrives while the key is empty is answered
    with the configuration error and [st.stop()]: nothing else happens in
    that run (no call to the hosted model, no [INSERT]), the table and the
    audio fingerprint are what they were, and every later run proceeds as
    if the rejected event had never arrived. *)
Theorem missing_credential_rejects env inp w :
  truthy (hf_api_key inp) = false →
  truthy_input (user_input inp) = true ∨ is_Some (audio_value inp) →
  let run := script_run env inp w in
  events run = [StError "⚠️ Please configure API Token."] ∧
  outcome run = Abrupt StopException ∧
  db (world run) = db w ∧
  last_processed_audio (session (world run)) = last_processed_audio (session w) ∧
  (∀ env' inp', script_run env' inp' (world run) = script_run env' inp' w).
Proof.
  intros Hkey Hany run.
  assert (Hrun : run = mkRun [StError CONFIG_ERROR]
                   {| session := {| ss_role := role_radio inp;
                                    last_processed_audio := last_processed_audio (session w) |};
                      db := db w |} (Abrupt StopException)).
  { subst run. rewrite script_run_eq, (logic_handler_no_key _ _ _ Hkey).
    destruct Hany as [Ht|Ha].
    - rewrite Ht. reflexivity.
    - rewrite (bool_decide_eq_true_2 _ Ha), orb_true_r. reflexivity. }
  rewrite Hrun. cbn [events world outcome session db last_processed_audio].
  do 4 (split; [reflexivity|]).
  intros env' inp'. rewrite !script_run_eq. reflexivity.
Qed.

(** ** What a run does to the table *)

Lemma committed_app l1 l2 : committed (l1 ++ l2) = committed l1 ++ committed l2.
Proof. unfold committed. apply omap_app. Qed.

Lemma committed_calls l :
  Forall (λ e, is_oracle_call e = true) l → committed l = [].
Proof.
  induction 1 as [|e l He _ IH]; [reflexivity|].
  destruct e; try discriminate; exact IH.
Qed.

Lemma committed_audio_events s inp : committed (audio_events s inp) = [].
Proof.
  unfold audio_events.
  destruct (fresh_audio (last_processed_audio s) inp); reflexivity.
Qed.

Lemma committed_translate env txt r l k : committed (translate_trace env txt r l k) = [].
Proof. apply committed_calls, translate_trace_calls. Qed.

(** Every run leaves the table alone or appends one row, stamped with the
    room selected in the sidebar and the clock reading of the run. *)
Lemma script_run_db env inp w :
  let run := script_run env inp w in
  (db (world run) = db w ∧ committed (events run) = []) ∨
  (∃ p, p_room_id p = sidebar_room_id inp ∧
        db (world run) = insert_message (now env) p (db w) ∧
        committed (events run) = [stored_row (sqlite_sequence (db w) + 1) (now env) p] ∧
        ExecuteInsert p ∈ events run).
Proof.
  intros run. subst run.
  destruct (truthy (hf_api_key inp)) eqn:Hkey.
  - rewrite script_run_eq, (logic_handler_eq _ _ _ Hkey). cbv zeta.
    cbn [session db].
    match goal with |- context [if ?c then _ else _] => destruct c end.
    + case_insert e Hins.
      * left. cbn [world db events]. split; [reflexivity|].
        rewrite !committed_app, committed_audio_events, committed_translate.
        reflexivity.
      * right. eexists. cbn [world db events].
        split; [|split; [reflexivity|split]].
        -- reflexivity.
        -- rewrite !committed_app, committed_audio_events, committed_translate.
           reflexivity.
        -- rewrite !elem_of_app. right. right. apply list_elem_of_here.
    + left. split; reflexivity.
  - rewrite script_run_eq, (logic_handler_no_key _ _ _ Hkey). left.
    destruct (truthy_input (user_input inp) || bool_decide (is_Some (audio_value inp)));
      split; reflexivity.
Qed.

(** ** Audio deduplication *)

(** A recording that is already the session's fingerprint, offered with no
    typed text, changes neither the table nor the fingerprint. *)
Lemma script_run_duplicate env inp w b :
  audio_value inp = Some b →
  truthy_input (user_input inp) = false →
  last_processed_audio (session w) = Some b →
  let run := script_run env inp w in
  db (world run) = db w ∧
  last_processed_audio (session (world run)) = Some b ∧
  committed (events run) = [] ∧
  Forall quiet (events run).
Proof.
  intros Ha Hu Hlast run. subst run.
  assert (Hold : fresh_audio (Some b) inp = None).
  { apply fresh_audio_old. right. exact Ha. }
  destruct (truthy (hf_api_key inp)) eqn:Hkey.
  - decide_run Hkey. rewrite Hlast, Hold, Hu.
    rewrite bool_decide_eq_false_2 by (intros [? ?]; discriminate).
    cbn. auto.
  - rewrite script_run_eq, (logic_handler_no_key _ _ _ Hkey).
    rewrite Ha, Hu, bool_decide_eq_true_2 by eauto.
    cbn. repeat split; auto. repeat constructor.
Qed.

(** With a credential, an offered recording is the session's fingerprint
    once the run is over, however the run ends. *)
Lemma script_run_fingerprint env inp w b :
  truthy (hf_api_key inp) = true →
  audio_value inp = Some b →
  last_processed_audio (session (world (script_run env inp w))) = Some b.
Proof.
  intros Hkey Ha. decide_run Hkey.
  destruct (decide (last_processed_audio (session w) = Some b)) as [Hold|Hnew].
  - rewrite (fresh_audio_old _ inp) by (right; congruence).
    destruct (truthy_input (user_input inp)); cbn [orb];
      [case_insert e Hins|rewrite bool_decide_eq_false_2
                            by (intros [? ?]; discriminate)];
      exact Hold.
  - rewrite (fresh_audio_new _ _ _ Ha Hnew).
    rewrite bool_decide_eq_true_2, orb_true_r by eauto.
    case_insert e Hins; reflexivity.
Qed.

(** What the handler has decided when a new recording comes with no typed
    text. *)
Lemma decided_locals_audio_only last inp b :
  truthy_input (user_input inp) = false →
  fresh_audio last inp = Some b →
  decided_locals last inp =
    {| current_text := SENTINEL; audio_data := Some b;
       has_audio_flag := true; should_save := true |}.
Proof.
  intros Hu Hf. unfold decided_locals, handle_text, locals_after_audio.
  rewrite Hf, Hu. cbn [negb].
  destruct (user_input inp) as [[|c u]|]; cbn in Hu |- *;
    try discriminate; reflexivity.
Qed.

(** A new recording with no typed text, a credential at hand and the
    store accepting the write: the sentinel row is appended and committed. *)
Lemma script_run_new_audio_only env inp w b :
  truthy (hf_api_key inp) = true →
  storage env = None →
  truthy_input (user_input inp) = false →
  audio_value inp = Some b →
  last_processed_audio (session w) ≠ Some b →
  let run := script_run env inp w in
  ∃ row, messages (db (world run)) = messages (db w) ++ [row] ∧
         committed (events run) = [row] ∧
         original_text row = SENTINEL ∧
         has_audio row = true ∧
         audio_bytes row = Some b ∧
         translated_text row = Some SENTINEL.
Proof.
  intros Hkey Hstore Hu Ha Hnew run. subst run.
  pose proof (fresh_audio_new _ _ _ Ha Hnew) as Hf.
  rewrite script_run_eq, (logic_handler_eq _ _ _ Hkey). cbv zeta.
  unfold saves, insert_params. cbn [session db last_processed_audio ss_role].
  rewrite (decided_locals_audio_only _ _ _ Hu Hf), Hf, Hkey, Hu.
  rewrite bool_decide_eq_true_2 by eauto.
  cbn [andb orb current_text has_audio_flag audio_data].
  rewrite translate_answer_sentinel.
  rewrite insert_failure_bindable, Hstore by reflexivity.
  cbn [world db events insert_message messages].
  eexists; split; [reflexivity|]. split.
  - rewrite !committed_app, committed_audio_events, committed_translate.
    reflexivity.
  - cbn. auto.
Qed.

(** C2.  The same recording offered on two consecutive runs with no typed
    text, a credential being at hand: the second run leaves the table as
    the first left it, commits nothing, and neither calls the hosted model
    nor reaches the [INSERT]; and when the recording is new to the session
    and the store accepts the write, the first run appends the sentinel
    row carrying the recording, so that exactly one row is persisted over
    the two runs. *)
Theorem audio_dedup_idempotent env1 env2 inp1 inp2 w b :
  audio_value inp1 = Some b →
  audio_value inp2 = Some b →
  truthy_input (user_input inp1) = false →
  truthy_input (user_input inp2) = false →
  truthy (hf_api_key inp1) = true →
  let run1 := script_run env1 inp1 w in
  let run2 := script_run env2 inp2 (world run1) in
  (db (world run2) = db (world run1) ∧
   committed (events run2) = [] ∧
   Forall quiet (events run2)) ∧
  (storage env1 = None →
   last_processed_audio (session w) ≠ Some b →
   ∃ row, messages (db (world run2)) = messages (db w) ++ [row] ∧
          committed (events run1 ++ events run2) = [row] ∧
          original_text row = "[Audio Message Attached]" ∧
          has_audio row = true ∧
          audio_bytes row = Some b).
Proof.
  intros Ha1 Ha2 Hu1 Hu2 Hkey run1 run2.
  pose proof (script_run_fingerprint env1 inp1 w b Hkey Ha1) as Hlast. fold run1 in Hlast.
  destruct (script_run_duplicate env2 inp2 (world run1) b Ha2 Hu2 Hlast)
    as (Hdb & _ & Hnone & Hquiet).
  fold run2 in Hdb, Hnone, Hquiet.
  split; [auto|].
  intros Hstore Hnew.
  rewrite Hdb, committed_app, Hnone, app_nil_r.
  destruct (script_run_new_audio_only env1 inp1 w b Hkey Hstore Hu1 Ha1 Hnew)
    as (row & Hmsgs & Hcommit & Htext & Hflag & Hbytes & _).
  exists row. auto.
Qed.

(** ** Translation and persistence *)

Lemma saves_persistable s inp :
  truthy (hf_api_key inp) = true →
  truthy_input (user_input inp) = true ∨
  (∃ b, audio_value inp = Some b ∧ last_processed_audio s ≠ Some b) →
  saves s inp = true.
Proof.
  intros Hkey Hp. unfold saves. rewrite Hkey. cbn [andb].
  destruct Hp as [-> | (b & Ha & Hnew)]; [reflexivity|].
  rewrite (fresh_audio_new _ _ _ Ha Hnew), bool_decide_eq_true_2 by eauto.
  apply orb_true_r.
Qed.

(** C3, as the code has it.  For every persistable input (a credential,
    and typed text or a new recording) the translation completes,
    whatever the network does, and only then is the [INSERT] executed,
    with the value the translation returned bound unchecked as
    [translated_text]: when the text is not the sentinel it is the answer
    of [get_llm_response].  Nothing before the translation touches the
    table.  When that value is a string, error strings included, and the
    store accepts the write, the appended row carries that very string;
    when it is [None] the appended row has a NULL translation; and when
    it is of a type sqlite3 cannot bind, the [INSERT] raises and the table
    is left as it was. *)
Theorem translation_failure_still_persists env inp w :
  truthy (hf_api_key inp) = true →
  truthy_input (user_input inp) = true ∨
  (∃ b, audio_value inp = Some b ∧ last_processed_audio (session w) ≠ Some b) →
  let run := script_run env inp w in
  ∃ p pre tr,
    p = insert_params env (sidebar_session inp w) inp ∧
    (∀ w0, translate_text env (p_original_text p) (p_role p) (p_target_lang p)
             (hf_api_key inp) w0
           = mkRun tr w0 (Normal (p_translated_text p))) ∧
    (p_original_text p ≠ "[Audio Message Attached]" →
     ∀ w0, outcome (get_llm_response env
                      (translate_messages (p_original_text p) (p_role p) (p_target_lang p))
                      (hf_api_key inp) w0)
           = Normal (p_translated_text p)) ∧
    Forall quiet pre ∧
    events run
    = pre ++ tr ++
      ExecuteInsert p ::
      match insert_failure env p with
      | None => [Commit (stored_row (sqlite_sequence (db w) + 1) (now env) p)]
      | Some _ => []
      end ∧
    (∀ s, p_translated_text p = PyStr s → storage env = None →
          messages (db (world run))
          = messages (db w) ++ [stored_row (sqlite_sequence (db w) + 1) (now env) p] ∧
          translated_text (stored_row (sqlite_sequence (db w) + 1) (now env) p) = Some s) ∧
    (p_translated_text p = PyNone → storage env = None →
     messages (db (world run))
     = messages (db w) ++ [stored_row (sqlite_sequence (db w) + 1) (now env) p] ∧
     translated_text (stored_row (sqlite_sequence (db w) + 1) (now env) p) = None) ∧
    (∀ e, binding_error (p_translated_text p) = Some e →
          outcome run = Abrupt (Raised e) ∧ db (world run) = db w).
Proof.
  intros Hkey Hp run. subst run.
  rewrite script_run_eq, (logic_handler_eq _ _ _ Hkey). cbv zeta.
  cbn [session db].
  rewrite (saves_persistable _ inp Hkey) by exact Hp.
  set (s := {| ss_role := role_radio inp;
               last_processed_audio := last_processed_audio (session w) |}).
  set (p := insert_params env s inp).
  exists p, (audio_events s inp),
    (translate_trace env (p_original_text p) (p_role p) (p_target_lang p)
       (hf_api_key inp)).
  split; [reflexivity|].
  split; [|split; [|split; [|split; [|split; [|split]]]]].
  - intros w0. rewrite translate_text_eq. reflexivity.
  - intros Hne w0. rewrite get_llm_response_eq. cbn [outcome].
    subst p. unfold insert_params in Hne |- *.
    cbn [p_translated_text p_original_text p_role p_target_lang] in Hne |- *.
    unfold translate_answer.
    destruct (decide _) as [Heq|_]; [contradiction|]. reflexivity.
  - unfold audio_events.
    destruct (fresh_audio (last_processed_audio s) inp); repeat constructor.
  - destruct (insert_failure env p); reflexivity.
  - intros t Ht Hstore.
    rewrite insert_failure_bindable, Hstore by (rewrite Ht; reflexivity).
    split; [reflexivity|]. cbn [stored_row translated_text]. rewrite Ht. reflexivity.
  - intros Ht Hstore.
    rewrite insert_failure_bindable, Hstore by (rewrite Ht; reflexivity).
    split; [reflexivity|]. cbn [stored_row translated_text]. rewrite Ht. reflexivity.
  - intros e He. unfold insert_failure. rewrite He. split; reflexivity.
Qed.

(** ** The fingerprint is set before anything is saved *)

Lemma execute_insert_in_calls p l :
  Forall (λ e, is_oracle_call e = true) l → ExecuteInsert p ∉ l.
Proof.
  intros Hall Hin. rewrite Forall_forall in Hall.
  specialize (Hall _ Hin). discriminate.
Qed.

Lemma calls_not_session_assign l :
  Forall (λ e, is_oracle_call e = true) l → Forall not_session_assign l.
Proof.
  intros Hall. eapply Forall_impl; [exact Hall|].
  intros e He b ->. discriminate.
Qed.

Lemma script_run_saving env inp w :
  truthy (hf_api_key inp) = true →
  saves (sidebar_session inp w) inp = true →
  let run := script_run env inp w in
  let p := insert_params env (sidebar_session inp w) inp in
  events run
  = audio_events (sidebar_session inp w) inp ++
    translate_trace env (p_original_text p) (p_role p) (p_target_lang p) (hf_api_key inp) ++
    ExecuteInsert p :: commit_tail env (db w) p ∧
  session (world run) = session_after_audio (sidebar_session inp w) inp.
Proof.
  intros Hkey Hsaves run p. subst run p.
  rewrite script_run_eq, (logic_handler_eq _ _ _ Hkey). cbv zeta.
  cbn [session db]. fold (sidebar_session inp w). rewrite Hsaves.
  unfold commit_tail. case_insert e Hins; split; reflexivity.
Qed.

Lemma script_run_events_idle env inp w p :
  saves (sidebar_session inp w) inp = false →
  ExecuteInsert p ∉ events (script_run env inp w).
Proof.
  intros Hsaves. rewrite script_run_eq.
  destruct (truthy (hf_api_key inp)) eqn:Hkey.
  - rewrite (logic_handler_eq _ _ _ Hkey). cbv zeta. cbn [session db].
    fold (sidebar_session inp w). rewrite Hsaves. apply not_elem_of_nil.
  - rewrite (logic_handler_no_key _ _ _ Hkey).
    destruct (truthy_input (user_input inp) || bool_decide (is_Some (audio_value inp)));
      cbn [events]; [|apply not_elem_of_nil].
    intros Hin. apply list_elem_of_singleton in Hin. discriminate.
Qed.

Lemma commit_tail_no_insert env d p q : ExecuteInsert q ∉ commit_tail env d p.
Proof.
  unfold commit_tail. destruct (insert_failure env p); [apply not_elem_of_nil|].
  intros Hin. apply list_elem_of_singleton in Hin. discriminate.
Qed.

Lemma commit_tail_not_session_assign env d p :
  Forall not_session_assign (commit_tail env d p).
Proof.
  unfold commit_tail. destruct (insert_failure env p); repeat constructor.
  intros b ?; discriminate.
Qed.

Lemma audio_events_no_insert s inp q : ExecuteInsert q ∉ audio_events s inp.
Proof.
  unfold audio_events.
  destruct (fresh_audio (last_processed_audio s) inp); [|apply not_elem_of_nil].
  intros Hin. apply list_elem_of_singleton in Hin. discriminate.
Qed.

(** C10.  Whenever a run reaches the [INSERT] with [has_audio] set, the
    first thing that run did was to store the very bytes of the row as the
    session's fingerprint; the translation and the [INSERT] come after it,
    no other assignment follows, and the fingerprint still holds those
    bytes when the run is over.  Moreover, with a credential, an offered
    recording is the fingerprint at the end of the run whether or not the
    translation or the store failed, and offering the same bytes again
    with no typed text changes nothing in the table and reaches neither
    the hosted model nor the [INSERT]. *)
Theorem fingerprint_precedes_save env inp w :
  let run := script_run env inp w in
  (∀ p, ExecuteInsert p ∈ events run → p_has_audio p = true →
        ∃ b post,
          p_audio_bytes p = Some b ∧
          events run = SessionAssignAudio b :: post ∧
          ExecuteInsert p ∈ post ∧
          Forall not_session_assign post ∧
          last_processed_audio (session (world run)) = Some b) ∧
  (∀ b, truthy (hf_api_key inp) = true → audio_value inp = Some b →
        last_processed_audio (session (world run)) = Some b ∧
        ∀ env' inp',
          audio_value inp' = Some b → truthy_input (user_input inp') = false →
          let run' := script_run env' inp' (world run) in
          db (world run') = db (world run) ∧
          committed (events run') = [] ∧
          Forall quiet (events run')).
Proof.
  intros run. split.
  - intros p Hin Hflag. subst run.
    destruct (saves (sidebar_session inp w) inp) eqn:Hsaves.
    2:{ exfalso. revert Hin. apply script_run_events_idle, Hsaves. }
    assert (Hkey : truthy (hf_api_key inp) = true).
    { unfold saves in Hsaves. apply andb_true_iff in Hsaves as [Hkey _]. exact Hkey. }
    destruct (script_run_saving env inp w Hkey Hsaves) as [Hev Hsess].
    set (s := sidebar_session inp w) in *.
    set (p0 := insert_params env s inp) in *.
    pose proof (translate_trace_calls env (p_original_text p0) (p_role p0)
                  (p_target_lang p0) (hf_api_key inp)) as Hcalls.
    set (tr := translate_trace _ _ _ _ _) in *.
    assert (Hp : p = p0).
    { rewrite Hev in Hin. rewrite !elem_of_app, elem_of_cons in Hin.
      destruct Hin as [Hin|[Hin|[Hin|Hin]]].
      - exfalso. revert Hin. apply audio_events_no_insert.
      - exfalso. revert Hin. apply execute_insert_in_calls, Hcalls.
      - congruence.
      - exfalso. revert Hin. apply commit_tail_no_insert. }
    subst p.
    assert (Hfresh : ∃ b, fresh_audio (last_processed_audio s) inp = Some b ∧
                          p_audio_bytes p0 = Some b).
    { subst p0. unfold insert_params in Hflag |- *.
      cbn [p_has_audio p_audio_bytes] in Hflag |- *.
      unfold decided_locals, handle_text, locals_after_audio in Hflag |- *.
      destruct (fresh_audio (last_processed_audio s) inp) as [b|].
      - exists b. split; [reflexivity|].
        destruct (user_input inp) as [u|]; [destruct (truthy u)|]; reflexivity.
      - destruct (user_input inp) as [u|]; [destruct (truthy u)|]; discriminate. }
    destruct Hfresh as (b & Hfresh & Hbytes).
    exists b, (tr ++ ExecuteInsert p0 :: commit_tail env (db w) p0).
    split; [exact Hbytes|]. split; [|split; [|split]].
    + rewrite Hev. unfold audio_events. rewrite Hfresh. reflexivity.
    + rewrite elem_of_app. right. apply list_elem_of_here.
    + apply Forall_app. split; [apply calls_not_session_assign, Hcalls|].
      constructor; [intros b' ?; discriminate|].
      apply commit_tail_not_session_assign.
    + rewrite Hsess. unfold session_after_audio. rewrite Hfresh. reflexivity.
  - intros b Hkey Ha.
    pose proof (script_run_fingerprint env inp w b Hkey Ha) as Hlast. fold run in Hlast.
    split; [exact Hlast|].
    intros env' inp' Ha' Hu' run'.
    destruct (script_run_duplicate env' inp' (world run) b Ha' Hu' Hlast)
      as (Hdb & _ & Hnone & Hquiet).
    auto.
Qed.

(** ** The table is the log of what was committed *)

Lemma history_table d log :
  history d log →
  messages d = committed log ∧
  sqlite_sequence d = Z.of_nat (length (messages d)) ∧
  (∀ i m, messages d !! i = Some m → row_id m = Z.of_nat i + 1) ∧
  (∀ m, m ∈ committed log →
        ∃ p, ExecuteInsert p ∈ log ∧ m = stored_row (row_id m) (timestamp m) p).
Proof.
  induction 1 as [|d log s env inp Hh (IHm & IHs & IHi & IHp)].
  - split; [reflexivity|]. split; [reflexivity|]. split.
    + intros i m Hi. cbn [empty_db messages] in Hi.
      rewrite lookup_nil in Hi. discriminate.
    + intros m Hin. inversion Hin.
  - destruct (script_run_db env inp {| session := s; db := d |})
      as [[Hdb Hnone] | (p & _ & Hdb & Hone & Hin)];
      cbn [db] in Hdb; rewrite Hdb, committed_app.
    + rewrite Hnone, app_nil_r.
      split; [exact IHm|]. split; [exact IHs|]. split; [exact IHi|].
      intros m Hm. destruct (IHp m Hm) as (p & Hp & Heq).
      exists p. split; [|exact Heq]. rewrite elem_of_app. left. exact Hp.
    + cbn [db] in Hone. rewrite Hone. cbn [insert_message messages sqlite_sequence].
      split; [rewrite IHm; reflexivity|]. split; [|split].
      * rewrite length_app, IHs. cbn [length]. lia.
      * intros i m Hi. apply lookup_app_Some in Hi as [Hi | [Hlen Hi]].
        -- apply IHi, Hi.
        -- destruct (i - length (messages d))%nat as [|k] eqn:Hk;
             [|cbn in Hi; discriminate].
           cbn in Hi. injection Hi as <-. cbn [row_id stored_row]. rewrite IHs. lia.
      * intros m Hm. rewrite elem_of_app in Hm. destruct Hm as [Hm|Hm].
        -- destruct (IHp m Hm) as (q & Hq & Heq).
           exists q. split; [|exact Heq]. rewrite elem_of_app. left. exact Hq.
        -- apply list_elem_of_singleton in Hm. subst m.
           exists p. split; [|reflexivity]. rewrite elem_of_app. right. exact Hin.
Qed.

Lemma history_ids_distinct d log : history d log → NoDup (row_id <$> messages d).
Proof.
  intros Hh. destruct (history_table d log Hh) as (_ & _ & Hids & _).
  apply NoDup_alt. intros i j x Hi Hj.
  rewrite list_lookup_fmap in Hi, Hj.
  destruct (messages d !! i) as [a|] eqn:Ha; [|discriminate].
  destruct (messages d !! j) as [b|] eqn:Hb; [|discriminate].
  cbn in Hi, Hj. injection Hi as Hi. injection Hj as Hj.
  apply Hids in Ha, Hb. lia.
Qed.

(** C7.  After any sequence of runs, what the room-scoped read returns for
    a room is, up to order, the list of rows committed so far whose
    [room_id] is that room: every returned row was committed under that
    room by an [INSERT] that named it, no row committed under that room is
    missing, and no row of another room appears. *)
Theorem room_isolation d log r df_msgs :
  history d log →
  history_query d r df_msgs →
  df_msgs ≡ₚ filter (in_room r) (committed log) ∧
  (∀ m, m ∈ df_msgs ↔ m ∈ committed log ∧ room_id m = r) ∧
  (∀ m, m ∈ df_msgs → ∃ p, ExecuteInsert p ∈ log ∧ p_room_id p = r ∧
                           m = stored_row (row_id m) (timestamp m) p) ∧
  (∀ m r', m ∈ committed log → room_id m = r' → r' ≠ r → m ∉ df_msgs).
Proof.
  intros Hh [Hperm _].
  destruct (history_table d log Hh) as (Hm & _ & _ & Hp).
  unfold scan_room in Hperm. rewrite Hm in Hperm.
  assert (Hmem : ∀ m, m ∈ df_msgs ↔ m ∈ committed log ∧ room_id m = r).
  { intros m. rewrite Hperm, list_elem_of_filter. unfold in_room. tauto. }
  split; [exact Hperm|]. split; [exact Hmem|]. split.
  - intros m Hin. apply Hmem in Hin as [Hin Hroom].
    destruct (Hp m Hin) as (p & Hlog & Heq).
    exists p. split; [exact Hlog|]. split; [|exact Heq].
    rewrite Heq in Hroom. exact Hroom.
  - intros m r' _ Hroom Hne Hin. apply Hmem in Hin as [_ Hr]. congruence.
Qed.

(** ** Order of the room-scoped read *)

Lemma StronglySorted_lookup {A} (R : A → A → Prop) (l : list A) i j a b :
  StronglySorted R l → (i < j)%nat → l !! i = Some a → l !! j = Some b → R a b.
Proof.
  intros Hs. revert i j. induction Hs as [|x l Hs IH Hall]; intros i j Hij Hi Hj.
  - rewrite lookup_nil in Hi. discriminate.
  - destruct j as [|j]; [lia|]. cbn in Hj.
    destruct i as [|i].
    + cbn in Hi. injection Hi as <-.
      rewrite Forall_forall in Hall. apply Hall.
      apply list_elem_of_lookup. eauto.
    + cbn in Hi. apply (IH i j); [lia|assumption..].
Qed.

Lemma ts_le_trans : Transitive ts_le.
Proof. unfold ts_le. intros a b c ? ?. lia. Qed.

(** ** The reads are answers to the statements *)

Lemma insert_by_timestamp_perm m l : insert_by_timestamp m l ≡ₚ m :: l.
Proof.
  induction l as [|x l IH]; [reflexivity|]. cbn [insert_by_timestamp].
  destruct (decide (ts_le x m)); [|reflexivity].
  rewrite IH. apply perm_swap.
Qed.

Lemma insert_by_timestamp_sorted m l :
  Sorted ts_le l → Sorted ts_le (insert_by_timestamp m l).
Proof.
  induction l as [|x l IH]; intros Hs.
  - repeat constructor.
  - cbn [insert_by_timestamp]. apply Sorted_inv in Hs as [Hs Hhd].
    destruct (decide (ts_le x m)) as [Hle|Hgt].
    + constructor; [apply IH, Hs|].
      destruct l as [|y l]; cbn [insert_by_timestamp].
      * constructor. exact Hle.
      * destruct (decide (ts_le y m)); constructor; [|exact Hle].
        apply HdRel_inv in Hhd. exact Hhd.
    + constructor; [constructor; assumption|].
      constructor. unfold ts_le in *. lia.
Qed.

Lemma order_by_timestamp_spec l :
  order_by_timestamp l ≡ₚ l ∧ Sorted ts_le (order_by_timestamp l).
Proof.
  unfold order_by_timestamp.
  assert (H : ∀ acc, Sorted ts_le acc →
                foldl (λ acc m, insert_by_timestamp m acc) acc l ≡ₚ acc ++ l ∧
                Sorted ts_le (foldl (λ acc m, insert_by_timestamp m acc) acc l)).
  { induction l as [|m l IH]; intros acc Hacc; cbn [foldl].
    - rewrite app_nil_r. auto.
    - destruct (IH (insert_by_timestamp m acc) (insert_by_timestamp_sorted m acc Hacc))
        as [Hp Hs].
      split; [|exact Hs].
      rewrite Hp, insert_by_timestamp_perm. cbn [app]. apply Permutation_middle. }
  apply (H []). constructor.
Qed.

Lemma read_history_admissible d r : history_query d r (read_history d r).
Proof. apply order_by_timestamp_spec. Qed.

Lemma read_summary_rows_admissible d r : summary_query d r (read_summary_rows d r).
Proof. exists (scan_room r d). split; reflexivity. Qed.

(** The stable sort lists rows of the same second by increasing
    id: the table is in id order and insertion keeps a row behind every
    row that is no later. *)
Lemma StronglySorted_filter {A} (R : A → A → Prop) (P : A → Prop)
    `{∀ x, Decision (P x)} (l : list A) :
  StronglySorted R l → StronglySorted R (filter P l).
Proof.
  induction 1 as [|x l Hs IH Hall]; [constructor|].
  rewrite filter_cons. destruct (decide (P x)); [|exact IH].
  constructor; [exact IH|].
  rewrite Forall_forall in Hall |- *.
  intros y Hy. apply list_elem_of_filter in Hy as [_ Hy]. apply Hall, Hy.
Qed.

Lemma history_id_order d log : history d log → StronglySorted id_lt (messages d).
Proof.
  intros Hh. destruct (history_table d log Hh) as (_ & _ & Hids & _).
  clear Hh. revert Hids. generalize (messages d) as l. intros l.
  induction l as [|x l IH] using rev_ind; intros Hids; [constructor|].
  apply StronglySorted_app_2.
  - intros a b Ha Hb. apply list_elem_of_singleton in Hb. subst b.
    apply list_elem_of_lookup in Ha as [i Hi].
    pose proof (lookup_lt_Some _ _ _ Hi) as Hlt.
    pose proof (Hids i a (lookup_app_l_Some _ _ _ _ Hi)) as Hia.
    pose proof (Hids (length l) x (list_lookup_middle _ _ _ _ eq_refl)) as Hx.
    unfold id_lt. lia.
  - apply IH. intros i m Hi. apply Hids, lookup_app_l_Some, Hi.
  - repeat constructor.
Qed.

Lemma transcript_lt_ts a b : transcript_lt a b → timestamp a ≤ timestamp b.
Proof. unfold transcript_lt. lia. Qed.

Lemma insert_by_timestamp_lex m l :
  StronglySorted transcript_lt l →
  (∀ x, x ∈ l → row_id x < row_id m) →
  StronglySorted transcript_lt (insert_by_timestamp m l).
Proof.
  induction l as [|x l IH]; intros Hs Hid; [repeat constructor|].
  cbn [insert_by_timestamp]. apply StronglySorted_inv in Hs as [Hs Hall].
  destruct (decide (ts_le x m)) as [Hle|Hgt].
  - constructor.
    + apply IH; [exact Hs|]. intros y Hy. apply Hid. right. exact Hy.
    + rewrite insert_by_timestamp_perm. constructor; [|exact Hall].
      pose proof (Hid x (list_elem_of_here _ _)) as Hx.
      unfold transcript_lt, ts_le in *. lia.
  - constructor; [constructor; assumption|].
    assert (Hmx : timestamp m < timestamp x) by (unfold ts_le in Hgt; lia).
    constructor; [left; exact Hmx|].
    eapply Forall_impl; [exact Hall|].
    intros y Hy. apply transcript_lt_ts in Hy. left. lia.
Qed.

Lemma order_by_timestamp_lex l :
  StronglySorted id_lt l → StronglySorted transcript_lt (order_by_timestamp l).
Proof.
  unfold order_by_timestamp.
  assert (H : ∀ acc, StronglySorted transcript_lt acc →
                StronglySorted id_lt l →
                (∀ x y, x ∈ acc → y ∈ l → row_id x < row_id y) →
                StronglySorted transcript_lt
                  (foldl (λ acc m, insert_by_timestamp m acc) acc l)).
  { induction l as [|m l IH]; intros acc Hacc Hl Hlt; cbn [foldl]; [exact Hacc|].
    apply StronglySorted_inv in Hl as [Hl Hm]. rewrite Forall_forall in Hm.
    apply IH; [|exact Hl|].
    - apply insert_by_timestamp_lex; [exact Hacc|].
      intros x Hx. apply Hlt; [exact Hx|left].
    - intros x y Hx Hy. rewrite insert_by_timestamp_perm in Hx.
      apply elem_of_cons in Hx as [->|Hx].
      + apply Hm, Hy.
      + apply Hlt; [exact Hx|right; exact Hy]. }
  intros Hl. apply H; [constructor|exact Hl|].
  intros x y Hx. inversion Hx.
Qed.

(** C1.  After any sequence of runs, the room-scoped read returns exactly
    the rows of the room, with timestamps that never decrease from one
    position to any later one, and among rows with equal timestamps the
    ids strictly increase with the position: id is the tie-break. *)
Theorem read_history_order d log r :
  history d log →
  let df_msgs := read_history d r in
  df_msgs ≡ₚ scan_room r d ∧
  (∀ i j a b, (i < j)%nat → df_msgs !! i = Some a → df_msgs !! j = Some b →
              timestamp a ≤ timestamp b ∧
              (timestamp a = timestamp b → row_id a < row_id b)).
Proof.
  intros Hh df_msgs. subst df_msgs.
  split; [apply order_by_timestamp_spec|].
  intros i j a b Hij Hi Hj.
  assert (Hlex : StronglySorted transcript_lt (read_history d r)).
  { apply order_by_timestamp_lex, StronglySorted_filter, (history_id_order d log Hh). }
  pose proof (StronglySorted_lookup _ _ i j a b Hlex Hij Hi Hj) as Hab.
  unfold transcript_lt in Hab. lia.
Qed.

(** ** The summary request *)

(** With a key and a non-empty frame, the handler sends the fixed
    four-section instruction followed by the frame rendered one turn per
    line, in the order of the frame. *)
Lemma summary_handler_request env key df w :
  truthy key = true →
  df ≠ [] →
  ∃ rest,
    events (summary_handler env key df w)
    = ClientChatCompletion
        (primary_call [ {| msg_role := "system"; msg_content := summary_instruction |};
                        {| msg_role := "user"; msg_content := full_text df |} ] key)
      :: rest.
Proof.
  intros Hkey Hne. unfold summary_handler. rewrite Hkey. cbn [negb].
  destruct df as [|t df]; [contradiction|].
  unfold generate_summary. unfold_py. rewrite get_llm_response_eq.
  cbn [events world outcome]. unfold oracle_trace, st_markdown, emit.
  cbn [events app]. eexists. reflexivity.
Qed.

(** An empty frame never reaches the hosted model. *)
Lemma summary_handler_empty env key w :
  truthy key = true →
  summary_handler env key [] w = mkRun [StWarning "No history in this room."] w (Normal tt).
Proof.
  intros Hkey. unfold summary_handler. rewrite Hkey. reflexivity.
Qed.

(** ** Rows written in the same second *)

Lemma tie_history : history tie_db tie_log.
Proof.
  exact (history_run (db (world tie_run1)) ([] ++ events tie_run1)
           (session (world tie_run1))
           (answering "gracias" 100) (typing "Room-1" Patient "thanks")
           (history_run empty_db [] initial_session (answering "hola" 100)
              (typing "Room-1" Doctor "hello") history_empty)).
Qed.

Lemma read_history_order_witness :
  history tie_db tie_log ∧
  (row_id <$> read_history tie_db "Room-1", timestamp <$> read_history tie_db "Room-1")
  = ([1; 2], [100; 100]) ∧
  read_history tie_db "Room-1" ≡ₚ scan_room "Room-1" tie_db ∧
  (∀ i j a b, (i < j)%nat →
              read_history tie_db "Room-1" !! i = Some a →
              read_history tie_db "Room-1" !! j = Some b →
              timestamp a ≤ timestamp b ∧
              (timestamp a = timestamp b → row_id a < row_id b)).
Proof.
  split; [exact tie_history|]. split; [vm_compute; reflexivity|].
  exact (read_history_order tie_db tie_log "Room-1" tie_history).
Defined.

(** ** Two rooms *)

Lemma ward_history : history ward_db ward_log.
Proof.
  exact (history_run (db (world ward_run2)) (([] ++ events ward_run1) ++ events ward_run2)
           (session (world ward_run2))
           (answering "Buenos días" 102) (typing "Room-2" Doctor "Good morning")
           (history_run (db (world ward_run1)) ([] ++ events ward_run1)
              (session (world ward_run1))
              (answering "Desde ayer" 101) (typing "Room-1" Patient "Since yesterday")
              (history_run empty_db [] initial_session
                 (answering "Me duele el estómago" 100)
                 (typing "Room-1" Doctor "My stomach hurts") history_empty))).
Qed.

Lemma ward_rooms :
  (original_text <$> read_history ward_db "Room-1")
  = ["My stomach hurts"; "Since yesterday"] ∧
  (original_text <$> read_history ward_db "Room-2") = ["Good morning"].
Proof. split; vm_compute; reflexivity. Qed.

Lemma room_isolation_witness :
  history ward_db ward_log ∧
  history_query ward_db "Room-1" (read_history ward_db "Room-1") ∧
  read_history ward_db "Room-1" ≡ₚ filter (in_room "Room-1") (committed ward_log) ∧
  (∀ m, m ∈ read_history ward_db "Room-1" ↔ m ∈ committed ward_log ∧ room_id m = "Room-1").
Proof.
  split; [exact ward_history|]. split; [apply read_history_admissible|].
  destruct (room_isolation ward_db ward_log "Room-1" (read_history ward_db "Room-1")
              ward_history (read_history_admissible ward_db "Room-1"))
    as (Hperm & Hmem & _).
  split; assumption.
Defined.

(** ** A summary after the clock was set back *)

Lemma regress_history : history regress_db regress_log.
Proof.
  exact (history_run (db (world regress_run1)) ([] ++ events regress_run1)
           (session (world regress_run1))
           (answering "Me duele el estómago" 100)
           (typing "Room-1" Patient "My stomach hurts")
           (history_run empty_db [] initial_session (answering "¿Dónde le duele?" 200)
              (typing "Room-1" Doctor "Where does it hurt?") history_empty)).
Qed.

(** C5 on a concrete log.  The doctor's question is committed at clock
    reading 200 and the patient's answer, with the clock set back, at 100.
    The summary query has no [ORDER BY]; on the rowid-order frame the
    handler sends the question first, whereas every answer to the ordered
    room read, and so the transcript by timestamp then id, has the
    patient's row first. *)
Theorem summary_document_not_in_timestamp_order :
  history regress_db regress_log ∧
  summary_query regress_db "Room-1" (read_summary_rows regress_db "Room-1") ∧
  (∀ env key w, truthy key = true →
     ∃ rest,
       events (summary_handler env key (read_summary_rows regress_db "Room-1") w)
       = ClientChatCompletion
           (primary_call
              [ {| msg_role := "system";
                   msg_content := "Summarize the following Doctor-Patient conversation. Format output with headers: 1. Symptoms, 2. Diagnoses, 3. Medications, 4. Follow-up Actions." |};
                {| msg_role := "user";
                   msg_content := "Doctor: Where does it hurt?" +:+ nl +:+
                                  "Patient: My stomach hurts" |} ] key)
         :: rest) ∧
  (∀ df_msgs, history_query regress_db "Room-1" df_msgs →
     StronglySorted transcript_lt df_msgs ∧
     full_text (turn <$> df_msgs)
     = "Patient: My stomach hurts" +:+ nl +:+ "Doctor: Where does it hurt?").
Proof.
  split; [exact regress_history|].
  split; [apply read_summary_rows_admissible|].
  split.
  - intros env key w Hkey.
    assert (Hne : read_summary_rows regress_db "Room-1" ≠ []) by (vm_compute; discriminate).
    destruct (summary_handler_request env key _ w Hkey Hne) as [rest Hrest].
    exists rest. rewrite Hrest. reflexivity.
  - intros df_msgs [Hperm Hsorted].
    assert (Hscan : scan_room "Room-1" regress_db
                    = [stored_row 1 200
                         {| p_room_id := "Room-1"; p_role := "Doctor";
                            p_original_text := "Where does it hurt?";
                            p_translated_text := PyStr "¿Dónde le duele?";
                            p_target_lang := "Spanish";
                            p_has_audio := false; p_audio_bytes := None |};
                       stored_row 2 100
                         {| p_room_id := "Room-1"; p_role := "Patient";
                            p_original_text := "My stomach hurts";
                            p_translated_text := PyStr "Me duele el estómago";
                            p_target_lang := "Spanish";
                            p_has_audio := false; p_audio_bytes := None |}])
      by (vm_compute; reflexivity).
    rewrite Hscan in Hperm. symmetry in Hperm.
    apply Permutation_length_2_inv in Hperm as [-> | ->].
    + exfalso. apply Sorted_inv in Hsorted as [_ Hhd].
      apply HdRel_inv in Hhd. vm_compute in Hhd. apply Hhd. reflexivity.
    + split; [|vm_compute; reflexivity].
      repeat constructor.
Qed.

(** ** The theorems at concrete inputs *)


(** Typed text with the key field left empty. *)
Lemma missing_credential_rejects_witness :
  truthy (hf_api_key (without_key (typing "Room-1" Doctor "hello"))) = false ∧
  (truthy_input (user_input (without_key (typing "Room-1" Doctor "hello"))) = true ∨
   is_Some (audio_value (without_key (typing "Room-1" Doctor "hello")))) ∧
  events (script_run (answering "hola" 100) (without_key (typing "Room-1" Doctor "hello"))
            initial_world)
  = [StError "⚠️ Please configure API Token."] ∧
  outcome (script_run (answering "hola" 100) (without_key (typing "Room-1" Doctor "hello"))
             initial_world)
  = Abrupt StopException ∧
  db (world (script_run (answering "hola" 100) (without_key (typing "Room-1" Doctor "hello"))
               initial_world))
  = db initial_world.
Proof.
  split; [reflexivity|]. split; [left; reflexivity|].
  destruct (missing_credential_rejects (answering "hola" 100)
              (without_key (typing "Room-1" Doctor "hello")) initial_world
              eq_refl (or_introl eq_refl))
    as (Hev & Hout & Hdb & _).
  split; [exact Hev|]. split; [exact Hout|exact Hdb].
Defined.

(** The same clip delivered on two consecutive runs. *)
Lemma audio_dedup_idempotent_witness :
  audio_value (recording "Room-1" Patient clip) = Some clip ∧
  truthy_input (user_input (recording "Room-1" Patient clip)) = false ∧
  truthy (hf_api_key (recording "Room-1" Patient clip)) = true ∧
  storage (answering "hola" 100) = None ∧
  last_processed_audio (session initial_world) ≠ Some clip ∧
  events (script_run (answering "hola" 101) (recording "Room-1" Patient clip)
            (world (script_run (answering "hola" 100)
                      (recording "Room-1" Patient clip) initial_world)))
  = [] ∧
  ∃ row,
    messages (db (world (script_run (answering "hola" 101) (recording "Room-1" Patient clip)
                           (world (script_run (answering "hola" 100)
                                     (recording "Room-1" Patient clip) initial_world)))))
    = messages (db initial_world) ++ [row] ∧
    original_text row = "[Audio Message Attached]" ∧
    has_audio row = true ∧
    audio_bytes row = Some clip.
Proof.
  split; [reflexivity|]. split; [reflexivity|]. split; [reflexivity|].
  split; [reflexivity|]. split; [discriminate|]. split; [reflexivity|].
  destruct (audio_dedup_idempotent (answering "hola" 100) (answering "hola" 101)
              (recording "Room-1" Patient clip) (recording "Room-1" Patient clip)
              initial_world clip eq_refl eq_refl eq_refl eq_refl eq_refl)
    as (_ & Hone).
  destruct (Hone eq_refl ltac:(discriminate)) as (row & Hm & _ & Ht & Hf & Hb).
  exists row. split; [exact Hm|]. split; [exact Ht|]. split; [exact Hf|exact Hb].
Defined.

(** Typed text while the hosted model answers 402: the quota message is
    what the row carries as its translation. *)
Lemma translation_failure_still_persists_witness :
  truthy (hf_api_key (typing "Room-1" Doctor "hello")) = true ∧
  truthy_input (user_input (typing "Room-1" Doctor "hello")) = true ∧
  ∃ row,
    messages (db (world (script_run (quota_exhausted 100) (typing "Room-1" Doctor "hello")
                           initial_world)))
    = [row] ∧
    translated_text row
    = Some "Error: Free Tier Limit Reached (402). Try a new HF Token.".
Proof.
  split; [reflexivity|]. split; [reflexivity|].
  destruct (translation_failure_still_persists (quota_exhausted 100)
              (typing "Room-1" Doctor "hello") initial_world eq_refl (or_introl eq_refl))
    as (p & pre & tr & Hp & _ & _ & _ & _ & Hstr & _).
  subst p.
  exact (ex_intro _ _
           (Hstr "Error: Free Tier Limit Reached (402). Try a new HF Token."
              eq_refl eq_refl)).
Defined.

(** A first recording while the disk is full: the run ends in the storage
    error with nothing persisted, the clip is the fingerprint all the
    same, and offering it again changes nothing.  With the store
    accepting the write, the assignment of the clip opens the log of the
    run that inserts it. *)
Lemma fingerprint_precedes_save_witness :
  truthy (hf_api_key (recording "Room-1" Patient clip)) = true ∧
  audio_value (recording "Room-1" Patient clip) = Some clip ∧
  truthy_input (user_input (recording "Room-1" Patient clip)) = false ∧
  outcome (script_run (disk_full 100) (recording "Room-1" Patient clip) initial_world)
  = Abrupt (Raised (Exception "database or disk is full")) ∧
  db (world (script_run (disk_full 100) (recording "Room-1" Patient clip) initial_world))
  = empty_db ∧
  last_processed_audio
    (session (world (script_run (disk_full 100) (recording "Room-1" Patient clip)
                       initial_world)))
  = Some clip ∧
  db (world (script_run (answering "hola" 101) (recording "Room-1" Patient clip)
               (world (script_run (disk_full 100) (recording "Room-1" Patient clip)
                         initial_world))))
  = db (world (script_run (disk_full 100) (recording "Room-1" Patient clip) initial_world)) ∧
  ExecuteInsert (mkParams "Room-1" "Patient" SENTINEL (PyStr SENTINEL) "Spanish" true
                   (Some clip))
  ∈ events (script_run (answering "hola" 100) (recording "Room-1" Patient clip)
              initial_world) ∧
  ∃ post,
    events (script_run (answering "hola" 100) (recording "Room-1" Patient clip)
              initial_world)
    = SessionAssignAudio clip :: post.
Proof.
  split; [reflexivity|]. split; [reflexivity|]. split; [reflexivity|].
  split; [reflexivity|]. split; [reflexivity|].
  destruct (proj2 (fingerprint_precedes_save (disk_full 100)
                     (recording "Room-1" Patient clip) initial_world)
              clip eq_refl eq_refl)
    as (Hlast & Hagain).
  split; [exact Hlast|].
  destruct (Hagain (answering "hola" 101) (recording "Room-1" Patient clip)
              eq_refl eq_refl) as (Hdb & _ & _).
  split; [exact Hdb|].
  assert (Hin : ExecuteInsert
                  (mkParams "Room-1" "Patient" SENTINEL (PyStr SENTINEL) "Spanish" true
                     (Some clip))
                ∈ events (script_run (answering "hola" 100)
                            (recording "Room-1" Patient clip) initial_world)).
  { apply list_elem_of_further, list_elem_of_here. }
  split; [exact Hin|].
  destruct (proj1 (fingerprint_precedes_save (answering "hola" 100)
                     (recording "Room-1" Patient clip) initial_world)
              _ Hin eq_refl)
    as (b0 & post & Hb & Hev & _).
  injection Hb as <-. exists post. exact Hev.
Defined.

(** The primary client raises and the raw request is answered 402. *)
Lemma get_llm_response_never_raises_witness :
  get_llm_response (quota_exhausted 100)
    (translate_messages "hello" "Doctor" "Spanish") "hf_demo" initial_world
  = mkRun [ClientChatCompletion
             (primary_call (translate_messages "hello" "Doctor" "Spanish") "hf_demo");
           RequestsPost
             (fallback_request (translate_messages "hello" "Doctor" "Spanish") "hf_demo")]
      initial_world
      (Normal (PyStr "Error: Free Tier Limit Reached (402). Try a new HF Token.")).
Proof.
  destruct (get_llm_response_never_raises (quota_exhausted 100)
              (translate_messages "hello" "Doctor" "Spanish") "hf_demo" initial_world)
    as ((answer & Hout & Hworld & Hcase) & _ & _).
  cbn [primary_outcome quota_exhausted client_chat http_post] in Hcase.
  destruct Hcase as (Hev & Hquota & _).
  rewrite <- (run_eta (get_llm_response _ _ _ _)), Hev, Hworld, Hout, (Hquota eq_refl).
  reflexivity.
Defined.

(** C4, as the spec has it, fails.  The hosted model answers with a
    [null] content: the call returns [None] after the one client call,
    and not a string. *)
Lemma get_llm_response_null_counterexample :
  get_llm_response (null_reply 100)
    (translate_messages "hello" "Doctor" "Spanish") "hf_demo" initial_world
  = mkRun [ClientChatCompletion
             (primary_call (translate_messages "hello" "Doctor" "Spanish") "hf_demo")]
      initial_world (Normal PyNone) ∧
  ¬ (∀ env messages api_key w,
       ∃ s, outcome (get_llm_response env messages api_key w) = Normal (PyStr s)).
Proof.
  split; [vm_compute; reflexivity|].
  intros Hclaim.
  destruct (Hclaim (null_reply 100) (translate_messages "hello" "Doctor" "Spanish")
              "hf_demo" initial_world) as [s Hs].
  vm_compute in Hs. discriminate Hs.
Qed.

(** C3, as the spec has it, fails.  Typed text, a credential and a store
    that accepts writes: when the hosted model answers with a [null]
    content the row is appended with a NULL translation, and when it
    answers with a list of content parts the [INSERT] raises and no row
    is appended. *)
Lemma translation_missing_counterexample :
  truthy (hf_api_key (typing "Room-1" Doctor "hello")) = true ∧
  truthy_input (user_input (typing "Room-1" Doctor "hello")) = true ∧
  storage (null_reply 100) = None ∧
  storage (list_reply 100) = None ∧
  (∃ row,
     messages (db (world (script_run (null_reply 100) (typing "Room-1" Doctor "hello")
                            initial_world)))
     = [row] ∧
     original_text row = "hello" ∧
     translated_text row = None) ∧
  outcome (script_run (list_reply 100) (typing "Room-1" Doctor "hello") initial_world)
  = Abrupt (Raised (Exception "Error binding parameter 4: type 'list' is not supported")) ∧
  messages (db (world (script_run (list_reply 100) (typing "Room-1" Doctor "hello")
                         initial_world)))
  = [].
Proof.
  do 4 (split; [reflexivity|]).
  split; [|split; vm_compute; reflexivity].
  eexists. split; [vm_compute; reflexivity|]. split; reflexivity.
Qed.

(** * Further properties of the code *)

(** ** Where the key comes from *)

(** X1.  The key is taken from the environment variable when that is
    non-empty, whatever the other sources hold; otherwise from the secrets
    store when it has a non-empty entry; otherwise from the password
    field.  A secrets store that raises counts as one without the entry.
    The success banner names the source and is shown exactly when the key
    did not come from the password field, and the key is empty exactly
    when all three sources are. *)
Theorem resolve_key_precedence getenv secrets typed :
  let secret := match secrets with Returns (Some v) => v | _ => "" end in
  (truthy_input getenv = true →
   ∃ k, getenv = Some k ∧
        resolve_key getenv secrets typed = (k, Some "✅ Key loaded from .env")) ∧
  (truthy_input getenv = false → truthy secret = true →
   resolve_key getenv secrets typed = (secret, Some "✅ Key loaded from Secrets")) ∧
  (truthy_input getenv = false → truthy secret = false →
   resolve_key getenv secrets typed = (typed, None)) ∧
  (truthy (fst (resolve_key getenv secrets typed)) = false ↔
   truthy_input getenv = false ∧ truthy secret = false ∧ typed = "").
Proof.
  intros secret. subst secret. unfold resolve_key.
  destruct getenv as [[|c k]|]; destruct secrets as [[[|c' v]|]|e];
    cbn [truthy_input truthy negb fst];
    (split; [|split; [|split]]);
    try solve [intros; discriminate];
    try solve [intros _; eexists; split; reflexivity];
    try solve [intros _ _; reflexivity];
    try solve [split; [intros H; discriminate
                      |intros (H1 & H2 & H3); discriminate]];
    try solve [split; [intros H; repeat split; try reflexivity;
                       destruct typed; [reflexivity|discriminate H]
                      |intros (H1 & H2 & H3); subst; reflexivity]].
Qed.

Lemma resolve_key_precedence_witness :
  truthy_input (Some "") = false ∧
  truthy "hf_secret" = true ∧
  resolve_key (Some "") (Returns (Some "hf_secret")) "typed"
  = ("hf_secret", Some "✅ Key loaded from Secrets") ∧
  resolve_key None (Raises (Exception "No secrets found")) "typed" = ("typed", None).
Proof.
  split; [reflexivity|]. split; [reflexivity|]. split.
  - exact (proj1 (proj2 (resolve_key_precedence (Some "") (Returns (Some "hf_secret"))
                           "typed")) eq_refl eq_refl).
  - exact (proj1 (proj2 (proj2 (resolve_key_precedence None
                                  (Raises (Exception "No secrets found")) "typed")))
             eq_refl eq_refl).
Defined.

(** ** Which texts reach the hosted model *)

Lemma oracle_trace_shape env messages api_key :
  ∃ rest, oracle_trace env messages api_key
          = ClientChatCompletion (primary_call messages api_key) :: rest ∧
          (length rest ≤ 1)%nat ∧
          Forall (λ e, is_oracle_call e = true) rest.
Proof.
  unfold oracle_trace.
  destruct (primary_outcome env messages api_key); eexists; (split; [reflexivity|]);
    cbn [length]; split; try lia; repeat constructor.
Qed.

Lemma oracle_trace_rest env messages api_key rest :
  oracle_trace env messages api_key
  = ClientChatCompletion (primary_call messages api_key) :: rest →
  rest = [] ∨ rest = [RequestsPost (fallback_request messages api_key)].
Proof.
  unfold oracle_trace. intros Heq. injection Heq as <-.
  destruct (primary_outcome env messages api_key); [left|right]; reflexivity.
Qed.

(** X5.  [translate_text] stays local for the sentinel and for nothing
    else: any other text, the empty one included, goes to the hosted model
    verbatim as the user message, after the interpreter instruction naming
    the speaker's role and the target language, with the key as token; at
    most one raw request follows the client call (the fallback request
    for the same messages and key), and the world is left as it was. *)
Theorem translate_text_calls_model env text source_role target_lang api_key w :
  let run := translate_text env text source_role target_lang api_key w in
  world run = w ∧
  (events run = [] ↔ text = "[Audio Message Attached]") ∧
  (text ≠ "[Audio Message Attached]" →
   ∃ rest,
     events run
     = ClientChatCompletion
         {| cc_model := "Qwen/Qwen2.5-7B-Instruct";
            cc_token := api_key;
            cc_messages :=
              [ {| msg_role := "system";
                   msg_content := translate_instruction source_role target_lang |};
                {| msg_role := "user"; msg_content := text |} ];
            cc_max_tokens := 500;
            cc_temperature := TEMPERATURE |} :: rest ∧
     (length rest ≤ 1)%nat ∧
     Forall (λ e, is_oracle_call e = true) rest ∧
     (rest = [] ∨
      rest = [RequestsPost
                (fallback_request (translate_messages text source_role target_lang)
                   api_key)])).
Proof.
  intros run. subst run. rewrite translate_text_eq. cbn [world events].
  unfold translate_trace. split; [reflexivity|].
  destruct (decide (text = SENTINEL)) as [Heq|Hne].
  - split; [split; [intros _; exact Heq|reflexivity]|].
    intros Hne. contradiction.
  - destruct (oracle_trace_shape env (translate_messages text source_role target_lang)
                api_key) as (rest & Hrest & Hlen & Hcalls).
    rewrite Hrest. split.
    + split; [discriminate|]. intros Heq. contradiction.
    + intros _. exists rest. split; [reflexivity|]. split; [assumption|].
      split; [assumption|]. apply (oracle_trace_rest env), Hrest.
Qed.

Lemma translate_text_calls_model_witness :
  "" ≠ "[Audio Message Attached]" ∧
  ∃ rest,
    events (translate_text (answering "hola" 100) "" "Doctor" "Spanish" "hf_demo"
              initial_world)
    = ClientChatCompletion
        (primary_call (translate_messages "" "Doctor" "Spanish") "hf_demo") :: rest.
Proof.
  split; [discriminate|].
  destruct (proj2 (proj2 (translate_text_calls_model (answering "hola" 100) ""
                            "Doctor" "Spanish" "hf_demo" initial_world))
              ltac:(discriminate))
    as (rest & Hev & _).
  exists rest. exact Hev.
Defined.

(** ** The summary handler *)

(** X2.  Pressing the summary button never changes the session or the
    table and never ends the run: the handler completes normally for
    every network behaviour.  Without a key it only reports the missing
    key; with a key and an empty frame it only warns that the room has no
    history; otherwise it calls the hosted model (one client call, at most
    one raw request, the fallback for the same messages and key) with the
    fixed instruction and the rendered frame,
    and hands whatever comes back, an error string included, to
    [st.markdown] as the summary. *)
Theorem summary_handler_effects env key df w :
  let run := summary_handler env key df w in
  world run = w ∧
  outcome run = Normal tt ∧
  (truthy key = false → events run = [StError "Please provide an API Key first."]) ∧
  (truthy key = true → df = [] → events run = [StWarning "No history in this room."]) ∧
  (truthy key = true → df ≠ [] →
   ∃ rest answer,
     events run
     = ClientChatCompletion
         (primary_call [ {| msg_role := "system"; msg_content := summary_instruction |};
                         {| msg_role := "user"; msg_content := full_text df |} ] key)
       :: rest ++ [StMarkdown answer] ∧
     (length rest ≤ 1)%nat ∧
     Forall (λ e, is_oracle_call e = true) rest ∧
     outcome (generate_summary env (full_text df) key w) = Normal answer ∧
     (rest = [] ∨
      rest = [RequestsPost
                (fallback_request
                   [ {| msg_role := "system"; msg_content := summary_instruction |};
                     {| msg_role := "user"; msg_content := full_text df |} ] key)])).
Proof.
  intros run. subst run. unfold summary_handler.
  destruct (truthy key) eqn:Hkey; cbn [negb].
  - destruct df as [|t df].
    + repeat split; try discriminate; try reflexivity. intros _ Hne. contradiction.
    + unfold generate_summary. unfold_py. rewrite get_llm_response_eq.
      cbn [events world outcome]. unfold st_markdown, emit. cbn [events world outcome].
      split; [reflexivity|]. split; [reflexivity|].
      split; [discriminate|]. split; [intros _; discriminate|].
      intros _ _.
      destruct (oracle_trace_shape env
                  [ {| msg_role := "system"; msg_content := summary_instruction |};
                    {| msg_role := "user"; msg_content := full_text (t :: df) |} ] key)
        as (rest & Hrest & Hlen & Hcalls).
      rewrite Hrest. exists rest. eexists.
      split; [reflexivity|]. split; [exact Hlen|]. split; [exact Hcalls|].
      split; [reflexivity|]. apply (oracle_trace_rest env), Hrest.
  - repeat split; try discriminate; reflexivity.
Qed.

Lemma summary_handler_effects_witness :
  truthy "hf_demo" = true ∧
  [("Doctor", "Where does it hurt?")] ≠ [] ∧
  outcome (summary_handler (quota_exhausted 100) "hf_demo"
             [("Doctor", "Where does it hurt?")] initial_world) = Normal tt ∧
  ∃ rest,
    events (summary_handler (quota_exhausted 100) "hf_demo"
              [("Doctor", "Where does it hurt?")] initial_world)
    = ClientChatCompletion
        (primary_call [ {| msg_role := "system"; msg_content := summary_instruction |};
                        {| msg_role := "user";
                           msg_content := "Doctor: Where does it hurt?" |} ] "hf_demo")
      :: rest ++ [StMarkdown
                    (PyStr "Error: Free Tier Limit Reached (402). Try a new HF Token.")].
Proof.
  split; [reflexivity|]. split; [discriminate|].
  destruct (summary_handler_effects (quota_exhausted 100) "hf_demo"
              [("Doctor", "Where does it hurt?")] initial_world)
    as (_ & Hout & _ & _ & Hcall).
  split; [exact Hout|].
  destruct (Hcall eq_refl ltac:(discriminate))
    as (rest & answer & Hev & _ & _ & Hans & _).
  exists rest. rewrite Hev.
  vm_compute in Hans. injection Hans as <-. reflexivity.
Defined.

(** ** One run, step by step *)

Lemma script_run_step env inp w :
  let run := script_run env inp w in
  let s := sidebar_session inp w in
  (db (world run) = db w ∧ committed (events run) = []) ∨
  (saves s inp = true ∧ insert_failure env (insert_params env s inp) = None ∧
   db (world run) = insert_message (now env) (insert_params env s inp) (db w) ∧
   committed (events run)
   = [stored_row (sqlite_sequence (db w) + 1) (now env) (insert_params env s inp)]).
Proof.
  intros run s. subst run s.
  destruct (truthy (hf_api_key inp)) eqn:Hkey.
  - rewrite script_run_eq, (logic_handler_eq _ _ _ Hkey). cbv zeta.
    cbn [session db]. fold (sidebar_session inp w).
    destruct (saves (sidebar_session inp w) inp) eqn:Hsaves.
    + case_insert e Hins.
      * left. cbn [world db events]. split; [reflexivity|].
        rewrite !committed_app, committed_audio_events, committed_translate.
        reflexivity.
      * right. cbn [world db events].
        split; [reflexivity|]. split; [reflexivity|]. split; [reflexivity|].
        rewrite !committed_app, committed_audio_events, committed_translate.
        reflexivity.
    + left. split; reflexivity.
  - rewrite script_run_eq, (logic_handler_no_key _ _ _ Hkey). left.
    destruct (truthy_input (user_input inp) || bool_decide (is_Some (audio_value inp)));
      split; reflexivity.
Qed.

Lemma saves_false s inp :
  truthy (hf_api_key inp) = true →
  saves s inp = false →
  truthy_input (user_input inp) = false ∧
  (audio_value inp = None ∨ audio_value inp = last_processed_audio s).
Proof.
  intros Hkey. unfold saves, fresh_audio. rewrite Hkey. cbn [andb].
  intros Hs. apply orb_false_elim in Hs as [Hu Ha]. split; [exact Hu|].
  destruct (audio_value inp) as [b|]; [|left; reflexivity].
  right. destruct (decide (last_processed_audio s ≠ Some b)) as [Hne|Heq].
  - exfalso. rewrite bool_decide_eq_false in Ha. apply Ha. eauto.
  - destruct (decide (last_processed_audio s = Some b)) as [->|Hne];
      [reflexivity|contradiction].
Qed.

(** X6.  The table is append-only: a run keeps every row it found, in
    place and unchanged, and adds at most one row behind them; the
    [AUTOINCREMENT] counter never goes down. *)
Theorem script_run_append_only env inp w :
  let run := script_run env inp w in
  messages (db w) `prefix_of` messages (db (world run)) ∧
  (length (messages (db (world run))) ≤ S (length (messages (db w))))%nat ∧
  sqlite_sequence (db w) ≤ sqlite_sequence (db (world run)) ∧
  (∀ i m, messages (db w) !! i = Some m → messages (db (world run)) !! i = Some m).
Proof.
  intros run.
  destruct (script_run_step env inp w) as [[Hdb _] | (_ & _ & Hdb & _)];
    fold run in Hdb; rewrite Hdb.
  - split; [reflexivity|]. split; [lia|]. split; [lia|]. auto.
  - cbn [insert_message messages sqlite_sequence].
    split; [apply prefix_app_r; reflexivity|].
    split; [rewrite length_app; cbn [length]; lia|]. split; [lia|].
    intros i m Hi. apply lookup_app_l_Some. exact Hi.
Qed.

(** X10.  How a run ends tells what it did.  It ends normally only when
    there was nothing to save (no typed text, and no recording or, with a
    key, the recording already fingerprinted): then nothing at all was
    done.  It ends in [st.stop()] only for an input event with the key
    empty, after the configuration error alone.  It ends in [st.rerun()]
    exactly when one row was committed, stamped with the room, role and
    language selected in the sidebar during that run and with the clock
    of the store.  The only exception that can escape is the one raised
    on the [INSERT], by the store or because the translation is of a type
    sqlite3 cannot bind, in which case the table is as before. *)
Theorem script_run_outcome env inp w :
  let run := script_run env inp w in
  match outcome run with
  | Normal _ =>
      events run = [] ∧ db (world run) = db w ∧
      last_processed_audio (session (world run)) = last_processed_audio (session w) ∧
      truthy_input (user_input inp) = false ∧
      (audio_value inp = None ∨
       (truthy (hf_api_key inp) = true ∧
        audio_value inp = last_processed_audio (session w)))
  | Abrupt StopException =>
      truthy (hf_api_key inp) = false ∧
      (truthy_input (user_input inp) = true ∨ is_Some (audio_value inp)) ∧
      events run = [StError "⚠️ Please configure API Token."] ∧
      db (world run) = db w
  | Abrupt RerunException =>
      truthy (hf_api_key inp) = true ∧ storage env = None ∧
      ∃ row, messages (db (world run)) = messages (db w) ++ [row] ∧
             committed (events run) = [row] ∧
             room_id row = sidebar_room_id inp ∧
             role row = role_str (role_radio inp) ∧
             target_lang row = lang_str (sidebar_target_lang inp) ∧
             timestamp row = now env
  | Abrupt (Raised e) =>
      truthy (hf_api_key inp) = true ∧
      db (world run) = db w ∧ committed (events run) = [] ∧
      ∃ p, ExecuteInsert p ∈ events run ∧
           (binding_error (p_translated_text p) = Some e ∨
            (binding_error (p_translated_text p) = None ∧ storage env = Some e))
  end.
Proof.
  intros run. subst run.
  destruct (truthy (hf_api_key inp)) eqn:Hkey.
  - rewrite script_run_eq, (logic_handler_eq _ _ _ Hkey). cbv zeta.
    cbn [session db]. fold (sidebar_session inp w).
    destruct (saves (sidebar_session inp w) inp) eqn:Hsaves.
    + pose proof (insert_failure_cases env
                    (insert_params env (sidebar_session inp w) inp)) as Hcases.
      case_insert e Hins; cbn [outcome world events db].
      * split; [reflexivity|]. split; [reflexivity|].
        split.
        -- rewrite !committed_app, committed_audio_events, committed_translate.
           reflexivity.
        -- eexists. split; [|exact Hcases].
           rewrite !elem_of_app. right. right. apply list_elem_of_here.
      * split; [reflexivity|]. split; [exact (proj2 Hcases)|].
        eexists. cbn [insert_message messages]. split; [reflexivity|]. split.
        -- rewrite !committed_app, committed_audio_events, committed_translate.
           reflexivity.
        -- repeat split.
    + cbn [outcome world events db session].
      destruct (saves_false _ _ Hkey Hsaves) as [Hu Ha].
      cbn [sidebar_session last_processed_audio] in Ha.
      split; [reflexivity|]. split; [reflexivity|]. split; [reflexivity|].
      split; [exact Hu|]. destruct Ha as [Ha|Ha]; [left|right]; auto.
  - rewrite script_run_eq, (logic_handler_no_key _ _ _ Hkey).
    destruct (truthy_input (user_input inp)) eqn:Hu; cbn [orb outcome world events db].
    + split; [reflexivity|]. split; [left; reflexivity|]. split; reflexivity.
    + destruct (audio_value inp) as [b|] eqn:Ha.
      * rewrite bool_decide_eq_true_2 by eauto. cbn [outcome world events db].
        split; [reflexivity|]. split; [right; eauto|]. split; reflexivity.
      * rewrite bool_decide_eq_false_2 by (intros [? ?]; discriminate).
        cbn [outcome world events db session last_processed_audio].
        split; [reflexivity|]. split; [reflexivity|]. split; [reflexivity|].
        split; [reflexivity|]. left. reflexivity.
Qed.

(** ** What every stored row looks like *)

Lemma history_rows (P : Row → Prop) :
  (∀ env s inp new_id,
     saves s inp = true →
     P (stored_row new_id (now env) (insert_params env s inp))) →
  ∀ d log, history d log → Forall P (messages d).
Proof.
  intros Hstep d log Hh.
  induction Hh as [|d log s env inp Hh IH]; [constructor|].
  destruct (script_run_step env inp {| session := s; db := d |})
    as [[Hdb _] | (Hsaves & _ & Hdb & _)];
    cbn [db] in Hdb; rewrite Hdb; [exact IH|].
  cbn [insert_message messages]. apply Forall_app. split; [exact IH|].
  constructor; [|constructor]. apply Hstep, Hsaves.
Qed.

Lemma decided_text_truthy s inp :
  saves s inp = true →
  truthy (current_text (decided_locals (last_processed_audio s) inp)) = true.
Proof.
  unfold saves, decided_locals, handle_text, locals_after_audio.
  intros Hs. apply andb_true_iff in Hs as [_ Hs].
  destruct (user_input inp) as [u|]; cbn [truthy_input] in Hs |- *.
  - destruct (truthy u) eqn:Hu; [exact Hu|]. cbn [orb negb] in Hs |- *.
    destruct (fresh_audio (last_processed_audio s) inp); [reflexivity|].
    rewrite bool_decide_eq_true in Hs. destruct Hs as [? ?]. discriminate.
  - cbn [orb negb] in Hs |- *.
    destruct (fresh_audio (last_processed_audio s) inp); [reflexivity|].
    rewrite bool_decide_eq_true in Hs. destruct Hs as [? ?]. discriminate.
Qed.

Lemma decided_audio_consistent last inp :
  has_audio_flag (decided_locals last inp) = true
  ↔ is_Some (audio_data (decided_locals last inp)).
Proof.
  unfold decided_locals, handle_text, locals_after_audio.
  destruct (fresh_audio last inp) as [b|];
    destruct (user_input inp) as [u|]; try destruct (truthy u);
    cbn [has_audio_flag audio_data initial_locals];
    (split; [intros H; try discriminate; eauto
            |intros [x H]; try discriminate; reflexivity]).
Qed.

(** X7.  After any sequence of runs every row of the table has a
    non-empty [original_text], a [role] that is "Doctor" or "Patient", a
    [target_lang] among the five languages of the selector, and
    [has_audio] set exactly when a recording is stored with it. *)
Theorem stored_rows_well_formed d log m :
  history d log →
  m ∈ messages d →
  truthy (original_text m) = true ∧
  (role m = "Doctor" ∨ role m = "Patient") ∧
  target_lang m ∈ ["English"; "Spanish"; "French"; "Hindi"; "Mandarin"] ∧
  (has_audio m = true ↔ is_Some (audio_bytes m)).
Proof.
  intros Hh Hm.
  assert (Hall : Forall row_well_formed (messages d)).
  { apply (history_rows row_well_formed) with (log := log); [|exact Hh].
    intros env s inp new_id Hsaves. unfold row_well_formed, insert_params.
    cbn [stored_row original_text role target_lang has_audio audio_bytes
         p_original_text p_role p_target_lang p_has_audio p_audio_bytes].
    split; [apply decided_text_truthy, Hsaves|]. split; [|split].
    - destruct (ss_role s); [left|right]; reflexivity.
    - unfold LANGUAGES. destruct (sidebar_target_lang inp); cbn [lang_str];
        repeat first [apply list_elem_of_here | apply list_elem_of_further].
    - apply decided_audio_consistent. }
  rewrite Forall_forall in Hall. exact (Hall m Hm).
Qed.

Lemma stored_rows_well_formed_witness :
  history ward_db ward_log ∧
  (∀ m, m ∈ messages ward_db →
        truthy (original_text m) = true ∧ (role m = "Doctor" ∨ role m = "Patient")).
Proof.
  split; [exact ward_history|].
  intros m Hm.
  destruct (stored_rows_well_formed ward_db ward_log m ward_history Hm)
    as (Htext & Hrole & _).
  split; assumption.
Defined.

(** X8.  A row whose text is the sentinel carries the sentinel as its
    translation, whether the text was put there for an audio-only message
    or typed by the user; and a run in which the user types the sentinel
    makes no call to the hosted model. *)
Theorem sentinel_rows_untranslated d log :
  history d log →
  (∀ m, m ∈ messages d →
        original_text m = "[Audio Message Attached]" →
        translated_text m = Some "[Audio Message Attached]") ∧
  (∀ env inp w,
     user_input inp = Some "[Audio Message Attached]" →
     oracle_calls (events (script_run env inp w)) = 0%nat).
Proof.
  intros Hh. split.
  - assert (Hall : Forall (λ m, original_text m = SENTINEL →
                                translated_text m = Some SENTINEL)
                     (messages d)).
    { apply (history_rows _) with (log := log); [|exact Hh].
      intros env s inp new_id _. unfold insert_params.
      cbn [stored_row original_text translated_text p_original_text p_translated_text].
      intros Heq. rewrite Heq, translate_answer_sentinel. reflexivity. }
    rewrite Forall_forall in Hall. exact Hall.
  - intros env inp w Hu. rewrite script_run_eq.
    destruct (truthy (hf_api_key inp)) eqn:Hkey.
    + rewrite (logic_handler_eq _ _ _ Hkey). cbv zeta. cbn [session db].
      fold (sidebar_session inp w).
      assert (Htext : p_original_text (insert_params env (sidebar_session inp w) inp)
                      = SENTINEL).
      { unfold insert_params, decided_locals, handle_text. cbn [p_original_text].
        rewrite Hu. reflexivity. }
      rewrite Htext. unfold translate_trace.
      destruct (decide (SENTINEL = SENTINEL)); [|contradiction].
      unfold audio_events.
      destruct (saves (sidebar_session inp w) inp); [|reflexivity].
      case_insert err Hins;
        destruct (fresh_audio (last_processed_audio (sidebar_session inp w)) inp);
        reflexivity.
    + rewrite (logic_handler_no_key _ _ _ Hkey), Hu. reflexivity.
Qed.

Lemma sentinel_rows_untranslated_witness :
  history ward_db ward_log ∧
  user_input (typing "Room-1" Doctor "[Audio Message Attached]")
  = Some "[Audio Message Attached]" ∧
  oracle_calls (events (script_run (answering "hola" 100)
                          (typing "Room-1" Doctor "[Audio Message Attached]")
                          initial_world)) = 0%nat.
Proof.
  split; [exact ward_history|]. split; [reflexivity|].
  exact (proj2 (sentinel_rows_untranslated ward_db ward_log ward_history)
           (answering "hola" 100) (typing "Room-1" Doctor "[Audio Message Attached]")
           initial_world eq_refl).
Defined.

(** X9.  After any sequence of runs the rows carry the ids 1, 2, 3, ...
    in the order they were committed, the counter equals the number of
    rows, and so the next row gets an id larger than every id in use: no
    id is ever given twice. *)
Theorem ids_consecutive d log :
  history d log →
  (∀ i m, messages d !! i = Some m → row_id m = Z.of_nat i + 1) ∧
  sqlite_sequence d = Z.of_nat (length (messages d)) ∧
  NoDup (row_id <$> messages d) ∧
  (∀ m, m ∈ messages d → 1 ≤ row_id m ≤ sqlite_sequence d).
Proof.
  intros Hh. destruct (history_table d log Hh) as (_ & Hseq & Hids & _).
  split; [exact Hids|]. split; [exact Hseq|].
  split; [exact (history_ids_distinct d log Hh)|].
  intros m Hm. apply list_elem_of_lookup in Hm as [i Hi].
  pose proof (lookup_lt_Some _ _ _ Hi). rewrite (Hids i m Hi), Hseq. lia.
Qed.

Lemma ids_consecutive_witness :
  history ward_db ward_log ∧
  row_id <$> messages ward_db = [1; 2; 3] ∧
  sqlite_sequence ward_db = 3.
Proof.
  split; [exact ward_history|].
  destruct (ids_consecutive ward_db ward_log ward_history) as (_ & Hseq & _).
  split; [vm_compute; reflexivity|]. rewrite Hseq. vm_compute. reflexivity.
Defined.

(** ** How far the deduplication reaches *)

(** X11.  Only the last processed recording is remembered.  When a
    recording is followed by a different one and then offered again, each
    time with no typed text, a key and an accepting store, all three runs
    append a row: the table ends with three sentinel rows carrying the
    first, the second and again the first recording. *)
Theorem dedup_remembers_last_clip_only env1 env2 env3 inp1 inp2 inp3 w a b :
  a ≠ b →
  audio_value inp1 = Some a → audio_value inp2 = Some b → audio_value inp3 = Some a →
  truthy_input (user_input inp1) = false →
  truthy_input (user_input inp2) = false →
  truthy_input (user_input inp3) = false →
  truthy (hf_api_key inp1) = true →
  truthy (hf_api_key inp2) = true →
  truthy (hf_api_key inp3) = true →
  storage env1 = None → storage env2 = None → storage env3 = None →
  last_processed_audio (session w) ≠ Some a →
  let run1 := script_run env1 inp1 w in
  let run2 := script_run env2 inp2 (world run1) in
  let run3 := script_run env3 inp3 (world run2) in
  ∃ r1 r2 r3,
    messages (db (world run3)) = messages (db w) ++ [r1; r2; r3] ∧
    audio_bytes r1 = Some a ∧ audio_bytes r2 = Some b ∧ audio_bytes r3 = Some a ∧
    original_text r1 = "[Audio Message Attached]" ∧
    original_text r2 = "[Audio Message Attached]" ∧
    original_text r3 = "[Audio Message Attached]".
Proof.
  intros Hab Ha1 Ha2 Ha3 Hu1 Hu2 Hu3 Hk1 Hk2 Hk3 Hs1 Hs2 Hs3 Hnew run1 run2 run3.
  destruct (script_run_new_audio_only env1 inp1 w a Hk1 Hs1 Hu1 Ha1 Hnew)
    as (r1 & Hm1 & _ & Ht1 & _ & Hb1 & _).
  fold run1 in Hm1.
  pose proof (script_run_fingerprint env1 inp1 w a Hk1 Ha1) as Hl1. fold run1 in Hl1.
  assert (Hnew2 : last_processed_audio (session (world run1)) ≠ Some b)
    by (rewrite Hl1; congruence).
  destruct (script_run_new_audio_only env2 inp2 (world run1) b Hk2 Hs2 Hu2 Ha2 Hnew2)
    as (r2 & Hm2 & _ & Ht2 & _ & Hb2 & _).
  fold run2 in Hm2.
  pose proof (script_run_fingerprint env2 inp2 (world run1) b Hk2 Ha2) as Hl2.
  fold run2 in Hl2.
  assert (Hnew3 : last_processed_audio (session (world run2)) ≠ Some a)
    by (rewrite Hl2; congruence).
  destruct (script_run_new_audio_only env3 inp3 (world run2) a Hk3 Hs3 Hu3 Ha3 Hnew3)
    as (r3 & Hm3 & _ & Ht3 & _ & Hb3 & _).
  fold run3 in Hm3.
  exists r1, r2, r3. rewrite Hm3, Hm2, Hm1, <- !app_assoc. cbn [app].
  repeat split; assumption.
Qed.

Lemma dedup_remembers_last_clip_only_witness :
  clip ≠ [Byte.x03] ∧
  last_processed_audio (session initial_world) ≠ Some clip ∧
  ∃ r1 r2 r3,
    messages (db (world (script_run (answering "hola" 102) (recording "Room-1" Patient clip)
                  (world (script_run (answering "hola" 101)
                                     (recording "Room-1" Patient [Byte.x03])
                  (world (script_run (answering "hola" 100)
                                     (recording "Room-1" Patient clip)
                                     initial_world)))))))
    = messages (db initial_world) ++ [r1; r2; r3] ∧
    audio_bytes r1 = Some clip ∧ audio_bytes r2 = Some [Byte.x03] ∧
    audio_bytes r3 = Some clip.
Proof.
  split; [discriminate|]. split; [discriminate|].
  destruct (dedup_remembers_last_clip_only
              (answering "hola" 100) (answering "hola" 101) (answering "hola" 102)
              (recording "Room-1" Patient clip) (recording "Room-1" Patient [Byte.x03])
              (recording "Room-1" Patient clip) initial_world clip [Byte.x03]
              ltac:(discriminate) eq_refl eq_refl eq_refl eq_refl eq_refl eq_refl
              eq_refl eq_refl eq_refl eq_refl eq_refl eq_refl ltac:(discriminate))
    as (r1 & r2 & r3 & Hm & Hb1 & Hb2 & Hb3 & _).
  exists r1, r2, r3. repeat split; assumption.
Defined.

(** X12.  A recording that arrives while the key is empty is not
    fingerprinted: the run stops at the configuration error, and when the
    same recording is offered again once a key is present (the store
    accepting the write), it is saved as a new sentinel row. *)
Theorem clip_survives_missing_key env1 env2 inp1 inp2 w b :
  truthy (hf_api_key inp1) = false →
  truthy (hf_api_key inp2) = true →
  audio_value inp1 = Some b → audio_value inp2 = Some b →
  truthy_input (user_input inp2) = false →
  storage env2 = None →
  last_processed_audio (session w) ≠ Some b →
  let run1 := script_run env1 inp1 w in
  let run2 := script_run env2 inp2 (world run1) in
  outcome run1 = Abrupt StopException ∧
  db (world run1) = db w ∧
  last_processed_audio (session (world run1)) = last_processed_audio (session w) ∧
  ∃ row, messages (db (world run2)) = messages (db w) ++ [row] ∧
         original_text row = "[Audio Message Attached]" ∧
         has_audio row = true ∧
         audio_bytes row = Some b.
Proof.
  intros Hk1 Hk2 Ha1 Ha2 Hu2 Hs2 Hnew run1 run2.
  assert (Hrun1 : run1 = mkRun [StError CONFIG_ERROR]
                    {| session := sidebar_session inp1 w; db := db w |}
                    (Abrupt StopException)).
  { subst run1. rewrite script_run_eq, (logic_handler_no_key _ _ _ Hk1), Ha1.
    rewrite bool_decide_eq_true_2, orb_true_r by eauto. reflexivity. }
  assert (Hnew1 : last_processed_audio (session (world run1)) ≠ Some b)
    by (rewrite Hrun1; exact Hnew).
  destruct (script_run_new_audio_only env2 inp2 (world run1) b Hk2 Hs2 Hu2 Ha2 Hnew1)
    as (row & Hm & _ & Ht & Hf & Hb & _).
  fold run2 in Hm. rewrite Hrun1 in Hm |- *.
  cbn [outcome world db session sidebar_session last_processed_audio] in Hm |- *.
  split; [reflexivity|]. split; [reflexivity|]. split; [reflexivity|].
  exists row. auto.
Qed.

Lemma clip_survives_missing_key_witness :
  truthy (hf_api_key (without_key (recording "Room-1" Patient clip))) = false ∧
  truthy (hf_api_key (recording "Room-1" Patient clip)) = true ∧
  last_processed_audio (session initial_world) ≠ Some clip ∧
  ∃ row,
    messages (db (world (script_run (answering "hola" 101) (recording "Room-1" Patient clip)
                  (world (script_run (answering "hola" 100)
                            (without_key (recording "Room-1" Patient clip))
                            initial_world)))))
    = messages (db initial_world) ++ [row] ∧
    audio_bytes row = Some clip.
Proof.
  split; [reflexivity|]. split; [reflexivity|]. split; [discriminate|].
  destruct (clip_survives_missing_key (answering "hola" 100) (answering "hola" 101)
              (without_key (recording "Room-1" Patient clip))
              (recording "Room-1" Patient clip) initial_world clip
              eq_refl eq_refl eq_refl eq_refl eq_refl eq_refl ltac:(discriminate))
    as (_ & _ & _ & row & Hm & _ & _ & Hb).
  exists row. split; assumption.
Defined.

(** ** How often a run calls the hosted model *)

Lemma oracle_calls_app l1 l2 : oracle_calls (l1 ++ l2) = (oracle_calls l1 + oracle_calls l2)%nat.
Proof. unfold oracle_calls. rewrite filter_app, length_app. reflexivity. Qed.

Lemma oracle_calls_all l :
  Forall (λ e, is_oracle_call e = true) l → oracle_calls l = length l.
Proof.
  unfold oracle_calls. induction 1 as [|e l He _ IH]; [reflexivity|].
  rewrite filter_cons_True by exact He. cbn [length]. rewrite IH. reflexivity.
Qed.

Lemma translate_trace_length env txt r l k :
  (length (translate_trace env txt r l k) ≤ 2)%nat ∧
  (txt = SENTINEL → translate_trace env txt r l k = []).
Proof.
  unfold translate_trace. destruct (decide (txt = SENTINEL)) as [Heq|Hne].
  - split; [cbn; lia|reflexivity].
  - split; [|contradiction].
    destruct (oracle_trace_shape env (translate_messages txt r l) k)
      as (rest & -> & Hlen & _).
    cbn [length]. lia.
Qed.

Lemma decided_text_cases env s inp :
  saves s inp = true →
  p_original_text (insert_params env s inp) = SENTINEL ∨
  user_input inp = Some (p_original_text (insert_params env s inp)).
Proof.
  unfold saves, insert_params, decided_locals, handle_text, locals_after_audio.
  cbn [p_original_text].
  intros Hs. apply andb_true_iff in Hs as [_ Hs].
  destruct (user_input inp) as [u|]; cbn [truthy_input] in Hs |- *.
  - destruct (truthy u) eqn:Hu; [right; reflexivity|]. cbn [orb negb] in Hs |- *.
    destruct (fresh_audio (last_processed_audio s) inp); [left; reflexivity|].
    rewrite bool_decide_eq_true in Hs. destruct Hs as [? ?]. discriminate.
  - cbn [orb negb] in Hs |- *.
    destruct (fresh_audio (last_processed_audio s) inp); [left; reflexivity|].
    rewrite bool_decide_eq_true in Hs. destruct Hs as [? ?]. discriminate.
Qed.

(** X14.  A run calls the hosted model at most twice (the client call and
    one raw request), and only on its way to the [INSERT]: a run that does
    not reach the [INSERT] (no key, nothing to save, a duplicate
    recording) makes no call, and neither does a run that saves the
    sentinel. *)
Theorem script_run_oracle_budget env inp w :
  let run := script_run env inp w in
  (oracle_calls (events run) ≤ 2)%nat ∧
  ((0 < oracle_calls (events run))%nat →
   ∃ p, ExecuteInsert p ∈ events run ∧
        p_original_text p ≠ "[Audio Message Attached]" ∧
        user_input inp = Some (p_original_text p)).
Proof.
  intros run. subst run. rewrite script_run_eq.
  destruct (truthy (hf_api_key inp)) eqn:Hkey.
  - rewrite (logic_handler_eq _ _ _ Hkey). cbv zeta. cbn [session db].
    fold (sidebar_session inp w).
    set (s := sidebar_session inp w). set (p := insert_params env s inp).
    destruct (saves s inp) eqn:Hsaves.
    2:{ cbn [events]. assert (H1 : oracle_calls [] = 0%nat) by reflexivity.
        rewrite H1. split; [lia|intros; lia]. }
    pose proof (translate_trace_calls env (p_original_text p) (p_role p)
                  (p_target_lang p) (hf_api_key inp)) as Hcalls.
    destruct (translate_trace_length env (p_original_text p) (p_role p)
                (p_target_lang p) (hf_api_key inp)) as [Hlen Hsent].
    set (tr := translate_trace _ _ _ _ _) in *.
    assert (Hcount : ∀ tail, Forall (λ e, is_oracle_call e = false) tail →
              oracle_calls (audio_events s inp ++ tr ++ ExecuteInsert p :: tail)
              = length tr).
    { intros tail Htail. rewrite !oracle_calls_app, (oracle_calls_all tr Hcalls).
      assert (oracle_calls (audio_events s inp) = 0%nat) as ->.
      { unfold audio_events.
        destruct (fresh_audio (last_processed_audio s) inp); reflexivity. }
      assert (oracle_calls (ExecuteInsert p :: tail) = 0%nat) as ->; [|lia].
      unfold oracle_calls. rewrite filter_cons_False by discriminate.
      induction Htail as [|e tail He _ IH]; [reflexivity|].
      rewrite filter_cons_False by (rewrite He; discriminate). exact IH. }
    assert (Hgoal : ∀ tail, Forall (λ e, is_oracle_call e = false) tail →
              (oracle_calls (audio_events s inp ++ tr ++ ExecuteInsert p :: tail) ≤ 2)%nat ∧
              ((0 < oracle_calls (audio_events s inp ++ tr ++ ExecuteInsert p :: tail))%nat →
               ∃ q, ExecuteInsert q
                    ∈ audio_events s inp ++ tr ++ ExecuteInsert p :: tail ∧
                    p_original_text q ≠ SENTINEL ∧
                    user_input inp = Some (p_original_text q))).
    { intros tail Htail. rewrite (Hcount tail Htail). split; [exact Hlen|].
      intros Hpos. exists p. split; [|split].
      - rewrite !elem_of_app. right. right. apply list_elem_of_here.
      - intros Heq. rewrite (Hsent Heq) in Hpos. cbn in Hpos. lia.
      - destruct (decided_text_cases env s inp Hsaves) as [Heq|Hu]; [|exact Hu].
        exfalso. rewrite (Hsent Heq) in Hpos. cbn in Hpos. lia. }
    destruct (insert_failure env p); cbn [events]; apply Hgoal; repeat constructor.
  - rewrite (logic_handler_no_key _ _ _ Hkey).
    assert (H0 : oracle_calls [StError CONFIG_ERROR] = 0%nat) by reflexivity.
    assert (H1 : oracle_calls [] = 0%nat) by reflexivity.
    destruct (truthy_input (user_input inp) || bool_decide (is_Some (audio_value inp)));
      cbn [events]; rewrite ?H0, ?H1; (split; [lia|intros; lia]).
Qed.

Lemma script_run_oracle_budget_witness :
  oracle_calls (events (script_run (quota_exhausted 100) (typing "Room-1" Doctor "hello")
                          initial_world)) = 2%nat ∧
  ∃ p, ExecuteInsert p
       ∈ events (script_run (quota_exhausted 100) (typing "Room-1" Doctor "hello")
                   initial_world) ∧
       user_input (typing "Room-1" Doctor "hello") = Some (p_original_text p).
Proof.
  assert (Hcalls : oracle_calls (events (script_run (quota_exhausted 100)
                                           (typing "Room-1" Doctor "hello")
                                           initial_world)) = 2%nat)
    by (vm_compute; reflexivity).
  split; [exact Hcalls|].
  destruct (proj2 (script_run_oracle_budget (quota_exhausted 100)
                     (typing "Room-1" Doctor "hello") initial_world))
    as (p & Hin & _ & Hu).
  - rewrite Hcalls. lia.
  - exists p. split; assumption.
Defined.

(** ** What the summary is made of *)

Lemma summary_frame_members d log r df :
  history d log →
  summary_query d r df →
  df ≡ₚ turn <$> filter (in_room r) (committed log) ∧
  (∀ t, t ∈ df ↔ ∃ m, m ∈ committed log ∧ room_id m = r ∧ t = turn m).
Proof.
  intros Hh (rows & Hperm & ->).
  destruct (history_table d log Hh) as (Hm & _).
  unfold scan_room in Hperm. rewrite Hm in Hperm.
  split; [rewrite Hperm; reflexivity|].
  intros t. rewrite list_elem_of_fmap. split.
  - intros (m & -> & Hin). exists m. rewrite Hperm in Hin.
    apply list_elem_of_filter in Hin as [Hroom Hin]. auto.
  - intros (m & Hin & Hroom & ->). exists m. split; [reflexivity|].
    rewrite Hperm. apply list_elem_of_filter. auto.
Qed.

(** X4.  After any sequence of runs, every frame the summary query may
    return for a room consists of the (role, text) pairs of exactly the
    rows committed under that room, each once and in some order: turns of
    other rooms never enter the document, and none of the room's turns is
    left out. *)
Theorem summary_frame_room_isolation d log r df :
  history d log →
  summary_query d r df →
  df ≡ₚ turn <$> filter (in_room r) (committed log) ∧
  length df = length (filter (in_room r) (committed log)) ∧
  (∀ t, t ∈ df ↔ ∃ m, m ∈ committed log ∧ room_id m = r ∧ t = turn m).
Proof.
  intros Hh Hq.
  destruct (summary_frame_members d log r df Hh Hq) as [Hperm Hmem].
  split; [exact Hperm|]. split; [|exact Hmem].
  rewrite Hperm, length_fmap. reflexivity.
Qed.

Lemma summary_frame_room_isolation_witness :
  history ward_db ward_log ∧
  summary_query ward_db "Room-2" (read_summary_rows ward_db "Room-2") ∧
  read_summary_rows ward_db "Room-2" = [("Doctor", "Good morning")] ∧
  length (read_summary_rows ward_db "Room-2")
  = length (filter (in_room "Room-2") (committed ward_log)).
Proof.
  split; [exact ward_history|]. split; [apply read_summary_rows_admissible|].
  split; [vm_compute; reflexivity|].
  exact (proj1 (proj2 (summary_frame_room_isolation ward_db ward_log "Room-2"
                         (read_summary_rows ward_db "Room-2") ward_history
                         (read_summary_rows_admissible ward_db "Room-2")))).
Defined.

(** X3.  For a room under which nothing was committed, the summary query
    can only return the empty frame, and the handler then warns that the
    room has no history without calling the hosted model; for a room with
    at least one committed row no admissible frame is empty, so with a
    key the hosted model is always asked. *)
Theorem summary_of_empty_room d log r df :
  history d log →
  summary_query d r df →
  ((∀ m, m ∈ committed log → room_id m ≠ r) →
   df = [] ∧
   ∀ env key w, truthy key = true →
     summary_handler env key df w
     = mkRun [StWarning "No history in this room."] w (Normal tt)) ∧
  ((∃ m, m ∈ committed log ∧ room_id m = r) →
   df ≠ [] ∧
   ∀ env key w, truthy key = true →
     (0 < oracle_calls (events (summary_handler env key df w)))%nat).
Proof.
  intros Hh Hq.
  destruct (summary_frame_members d log r df Hh Hq) as [_ Hmem].
  split.
  - intros Hnone.
    assert (Hnil : df = []).
    { destruct df as [|t df]; [reflexivity|]. exfalso.
      destruct (proj1 (Hmem t) (list_elem_of_here _ _)) as (m & Hin & Hroom & _).
      exact (Hnone m Hin Hroom). }
    split; [exact Hnil|]. intros env key w Hkey. rewrite Hnil.
    apply summary_handler_empty, Hkey.
  - intros (m & Hin & Hroom).
    assert (Hne : df ≠ []).
    { intros Hnil. assert (Ht : turn m ∈ df) by (apply Hmem; eauto).
      rewrite Hnil in Ht. inversion Ht. }
    split; [exact Hne|]. intros env key w Hkey.
    destruct (summary_handler_request env key df w Hkey Hne) as [rest ->].
    unfold oracle_calls. rewrite filter_cons_True by reflexivity. cbn [length]. lia.
Qed.

Lemma summary_of_empty_room_witness :
  history ward_db ward_log ∧
  summary_query ward_db "Room-9" (read_summary_rows ward_db "Room-9") ∧
  (∀ m, m ∈ committed ward_log → room_id m ≠ "Room-9") ∧
  summary_handler (answering "hola" 103) "hf_demo" (read_summary_rows ward_db "Room-9")
    (world ward_run3)
  = mkRun [StWarning "No history in this room."] (world ward_run3) (Normal tt).
Proof.
  assert (Hnone : ∀ m, m ∈ committed ward_log → room_id m ≠ "Room-9").
  { intros m Hin. vm_compute in Hin.
    repeat (apply elem_of_cons in Hin as [Heq|Hin]; [subst m; discriminate|]).
    inversion Hin. }
  split; [exact ward_history|]. split; [apply read_summary_rows_admissible|].
  split; [exact Hnone|].
  destruct (proj1 (summary_of_empty_room ward_db ward_log "Room-9"
                     (read_summary_rows ward_db "Room-9") ward_history
                     (read_summary_rows_admissible ward_db "Room-9")) Hnone)
    as [_ Hwarn].
  exact (Hwarn (answering "hola" 103) "hf_demo" (world ward_run3) eq_refl).
Defined.

(** ** When the order of a room is settled *)

Lemma ts_lt_same l a b :
  StronglySorted ts_lt l → a ∈ l → b ∈ l → timestamp a = timestamp b → a = b.
Proof.
  intros Hs Ha Hb Heq.
  apply list_elem_of_lookup in Ha as [i Hi].
  apply list_elem_of_lookup in Hb as [j Hj].
  destruct (lt_eq_lt_dec i j) as [[Hlt| ->]|Hlt].
  - pose proof (StronglySorted_lookup ts_lt l i j a b Hs Hlt Hi Hj) as H.
    unfold ts_lt in H. lia.
  - congruence.
  - pose proof (StronglySorted_lookup ts_lt l j i b a Hs Hlt Hj Hi) as H.
    unfold ts_lt in H. lia.
Qed.

Lemma ts_lt_le l : StronglySorted ts_lt l → Sorted ts_le l.
Proof.
  intros Hs. apply StronglySorted_Sorted.
  induction Hs as [|x l Hs IH Hall]; constructor; [exact IH|].
  eapply Forall_impl; [exact Hall|]. unfold ts_lt, ts_le. intros; lia.
Qed.

(** X13.  When the rows of a room, in the order they were inserted, have
    strictly increasing timestamps (no two in the same second, the clock
    never set back), the ordered read has exactly one possible answer,
    the insertion order, and the rowid-order frame of the summary query
    lists the turns in that same order. *)
Theorem history_query_unique d r df_msgs :
  StronglySorted ts_lt (scan_room r d) →
  history_query d r df_msgs →
  df_msgs = scan_room r d ∧
  turn <$> df_msgs = read_summary_rows d r ∧
  read_history d r = scan_room r d.
Proof.
  intros Hs [Hperm Hsorted].
  assert (Huniq : ∀ l, l ≡ₚ scan_room r d → Sorted ts_le l → l = scan_room r d).
  { intros l Hp Hl.
    apply (@Sorted_unique_strong _ ts_le ts_le_trans);
      [| exact Hl | apply ts_lt_le, Hs | exact Hp].
    intros x1 x2 H1 H2 H12 H21. rewrite Hp in H1.
    apply (ts_lt_same (scan_room r d)); try assumption.
    unfold ts_le in *. lia. }
  assert (Hdf : df_msgs = scan_room r d) by (apply Huniq; assumption).
  split; [exact Hdf|]. split; [rewrite Hdf; reflexivity|].
  destruct (read_history_admissible d r) as [Hp Hl]. apply Huniq; assumption.
Qed.

Lemma history_query_unique_witness :
  StronglySorted ts_lt (scan_room "Room-1" ward_db) ∧
  history_query ward_db "Room-1" (read_history ward_db "Room-1") ∧
  read_history ward_db "Room-1" = scan_room "Room-1" ward_db ∧
  original_text <$> scan_room "Room-1" ward_db = ["My stomach hurts"; "Since yesterday"].
Proof.
  assert (Hs : StronglySorted ts_lt (scan_room "Room-1" ward_db)).
  { vm_compute. repeat constructor. }
  split; [exact Hs|]. split; [apply read_history_admissible|].
  split; [|vm_compute; reflexivity].
  exact (proj1 (history_query_unique ward_db "Room-1" (read_history ward_db "Room-1")
                  Hs (read_history_admissible ward_db "Room-1"))).
Defined.

(** ** The display loop *)

Lemma display_row_completes re_sub q row :
  truthy q = false ∨ is_Some (translated_text row) →
  snd (display_row re_sub q row) = None.
Proof.
  unfold display_row. intros [Hq|[t Ht]].
  - rewrite Hq. reflexivity.
  - rewrite Ht. destruct (truthy q); reflexivity.
Qed.

Lemma filtered_out_completes lower q row :
  truthy q = false ∨ is_Some (translated_text row) →
  ∃ b, filtered_out lower q row = Returns b.
Proof.
  unfold filtered_out. intros [Hq|[t Ht]].
  - rewrite Hq. eauto.
  - rewrite Ht. destruct (truthy q); [|eauto].
    destruct (negb (contains (lower q) (lower (original_text row)))); eauto.
Qed.

Lemma display_loop_filter lower re_sub q (df_msgs : list Row) :
  truthy q = false ∨ Forall (λ row, is_Some (translated_text row)) df_msgs →
  display_loop lower re_sub q df_msgs
  = (fst ∘ display_row re_sub q <$> filter (λ row, shows lower q row = true) df_msgs,
     None).
Proof.
  induction df_msgs as [|row l IH]; intros Hok; [reflexivity|].
  assert (Hrow : truthy q = false ∨ is_Some (translated_text row)).
  { destruct Hok as [Hq|Hall]; [left; exact Hq|right].
    apply Forall_cons in Hall as [Hrow _]. exact Hrow. }
  assert (Hl : truthy q = false ∨ Forall (λ row, is_Some (translated_text row)) l).
  { destruct Hok as [Hq|Hall]; [left; exact Hq|right].
    apply Forall_cons in Hall as [_ Hall]. exact Hall. }
  cbn [display_loop]. rewrite filter_cons.
  destruct (filtered_out_completes lower q row Hrow) as [b Hb].
  assert (Hs : shows lower q row = negb b)
    by (unfold shows; rewrite Hb; destruct b; reflexivity).
  rewrite Hb, Hs. destruct b; cbn [negb].
  - rewrite decide_False by discriminate. apply IH, Hl.
  - rewrite decide_True by reflexivity.
    pose proof (display_row_completes re_sub q row Hrow) as Hd.
    destruct (display_row re_sub q row) as [block e] eqn:Hdr.
    cbn [snd] in Hd. subst e. rewrite (IH Hl). csimpl. rewrite Hdr. reflexivity.
Qed.

(** With a search active the loop ends at the first row whose translation
    is NULL: in the test when the text is not found in the first column,
    and otherwise in the highlighting, with the block already opened. *)
Lemma display_loop_raises lower re_sub q (before : list Row) row after :
  truthy q = true →
  Forall (λ row, is_Some (translated_text row)) before →
  translated_text row = None →
  block_body (fst (display_row re_sub q row)) = [] ∧
  display_loop lower re_sub q (before ++ row :: after)
  = if contains (lower q) (lower (original_text row))
    then ((fst ∘ display_row re_sub q
             <$> filter (λ row, shows lower q row = true) before)
          ++ [fst (display_row re_sub q row)], Some TYPE_ERROR)
    else (fst ∘ display_row re_sub q
            <$> filter (λ row, shows lower q row = true) before, Some ATTRIBUTE_ERROR).
Proof.
  intros Hq Hall Hnone. split.
  { unfold display_row. rewrite Hq, Hnone. reflexivity. }
  induction before as [|x l IH].
  - cbn [app display_loop]. unfold filtered_out. rewrite Hq, Hnone.
    destruct (contains (lower q) (lower (original_text row))); cbn [negb];
      [|reflexivity].
    unfold display_row. rewrite Hq, Hnone. reflexivity.
  - apply Forall_cons in Hall as [Hx Hall]. specialize (IH Hall).
    cbn [app display_loop]. rewrite filter_cons.
    destruct (filtered_out_completes lower q x (or_intror Hx)) as [b Hb].
    assert (Hs : shows lower q x = negb b)
      by (unfold shows; rewrite Hb; destruct b; reflexivity).
    rewrite Hb, Hs. destruct b; cbn [negb].
    + rewrite decide_False by discriminate. exact IH.
    + rewrite decide_True by reflexivity.
      pose proof (display_row_completes re_sub q x (or_intror Hx)) as Hd.
      destruct (display_row re_sub q x) as [block e] eqn:Hdr.
      cbn [snd] in Hd. subst e. rewrite IH. csimpl. rewrite Hdr.
      destruct (contains (lower q) (lower (original_text row))); reflexivity.
Qed.

Lemma block_caption_display_row re_sub q row :
  truthy q = false ∨ is_Some (translated_text row) →
  block_caption (fst (display_row re_sub q row)) = [timestamp row].
Proof.
  unfold block_caption, display_row. intros [Hq|[t Ht]].
  - rewrite Hq. cbn [fst block_body].
    destruct (audio_bytes row) as [data|]; [|reflexivity].
    destruct (has_audio row && truthy_bytes (Some data)); reflexivity.
  - rewrite Ht. destruct (truthy q); cbn [fst block_body];
      (destruct (audio_bytes row) as [data|]; [|reflexivity]);
      destruct (has_audio row && truthy_bytes (Some data)); reflexivity.
Qed.

Lemma captions_of_rows re_sub q (l : list Row) :
  truthy q = false ∨ Forall (λ row, is_Some (translated_text row)) l →
  mjoin (block_caption <$> (fst ∘ display_row re_sub q <$> l)) = timestamp <$> l.
Proof.
  induction l as [|row l IH]; intros Hok; [reflexivity|]. csimpl.
  rewrite block_caption_display_row, IH.
  - reflexivity.
  - destruct Hok as [Hq|Hall]; [left; exact Hq|right].
    apply Forall_cons in Hall as [_ Hall]. exact Hall.
  - destruct Hok as [Hq|Hall]; [left; exact Hq|right].
    apply Forall_cons in Hall as [Hrow _]. exact Hrow.
Qed.

Lemma filter_without_search lower (l : list Row) :
  filter (λ row, shows lower "" row = true) l = l.
Proof.
  induction l as [|row l IH]; [reflexivity|].
  rewrite filter_cons, decide_True by reflexivity. f_equal. exact IH.
Qed.

Lemma timestamps_sorted (l : list Row) :
  StronglySorted ts_le l → StronglySorted Z.le (timestamp <$> l).
Proof.
  induction 1 as [|row l Hss IH Hall]; [constructor|].
  csimpl. constructor; [exact IH|]. apply Forall_fmap. exact Hall.
Qed.

(** X15.  For a frame answering the ordered room read.  When no search is
    active, or no row of the frame has a NULL translation, the loop
    completes and shows one block per row that the search does not
    filter out, in the order of the frame: every block belongs to a row
    of the room, and the captions run through the timestamps of the
    shown rows, never decreasing.  With no search text every row is
    shown, with its stored text verbatim and its translation as an
    f-string prints it ([None] for NULL).  With a search active the loop
    ends at the first row whose translation is NULL: with
    [AttributeError] in the filter test when the search text is not in
    the original text, and otherwise with [TypeError] in the
    highlighting, the block of that row opened and left empty; the rows
    behind it are not shown. *)
Theorem display_loop_rows lower re_sub q d r df_msgs :
  history_query d r df_msgs →
  let shown := filter (λ row, shows lower q row = true) df_msgs in
  (truthy q = false ∨ Forall (λ row, is_Some (translated_text row)) df_msgs →
   display_loop lower re_sub q df_msgs = (fst ∘ display_row re_sub q <$> shown, None) ∧
   shown `sublist_of` df_msgs ∧
   Forall (in_room r) shown ∧
   mjoin (block_caption <$> fst (display_loop lower re_sub q df_msgs))
   = timestamp <$> shown ∧
   StronglySorted Z.le (timestamp <$> shown)) ∧
  (q = "" →
   shown = df_msgs ∧
   ∀ row, ∃ rest,
     block_body (fst (display_row re_sub q row))
     = Markdown ("**" +:+ role row +:+ ":** " +:+ original_text row)
       :: Info ("**Translated (" +:+ target_lang row +:+ "):** "
                +:+ shown_text (translated_text row))
       :: rest) ∧
  (truthy q = true →
   ∀ before row after,
     df_msgs = before ++ row :: after →
     Forall (λ row, is_Some (translated_text row)) before →
     translated_text row = None →
     let blocks := fst ∘ display_row re_sub q
                     <$> filter (λ row, shows lower q row = true) before in
     block_body (fst (display_row re_sub q row)) = [] ∧
     display_loop lower re_sub q df_msgs
     = if contains (lower q) (lower (original_text row))
       then (blocks ++ [fst (display_row re_sub q row)], Some TYPE_ERROR)
       else (blocks, Some ATTRIBUTE_ERROR)).
Proof.
  intros [Hperm Hsorted] shown. split; [|split].
  - intros Hok.
    assert (Hshown : truthy q = false ∨ Forall (λ row, is_Some (translated_text row)) shown).
    { destruct Hok as [Hq|Hall]; [left; exact Hq|right].
      rewrite Forall_forall in Hall |- *. intros row Hrow.
      apply list_elem_of_filter in Hrow as [_ Hrow]. apply Hall, Hrow. }
    split; [apply display_loop_filter, Hok|]. split; [apply sublist_filter|].
    split; [|split].
    + apply Forall_forall. intros row Hrow.
      apply list_elem_of_filter in Hrow as [_ Hrow]. rewrite Hperm in Hrow.
      apply list_elem_of_filter in Hrow as [Hroom _]. exact Hroom.
    + rewrite (display_loop_filter _ _ _ _ Hok). cbn [fst].
      apply captions_of_rows, Hshown.
    + apply timestamps_sorted, StronglySorted_filter, Sorted_StronglySorted;
        [apply ts_le_trans|exact Hsorted].
  - intros ->. split; [apply filter_without_search|].
    intros row. unfold display_row. cbn [truthy fst block_body app].
    eexists. reflexivity.
  - intros Hq before row after -> Hall Hnone blocks.
    apply display_loop_raises; assumption.
Qed.

Lemma display_loop_rows_witness :
  history_query ward_db "Room-1" (read_history ward_db "Room-1") ∧
  mjoin (block_caption <$> fst (display_loop (λ t, t) (λ _ t, t) ""
                                  (read_history ward_db "Room-1")))
  = [100; 101] ∧
  block_name <$> fst (display_loop (λ t, t) (λ _ t, t) "" (read_history ward_db "Room-1"))
  = ["Doctor"; "Patient"] ∧
  snd (display_loop (λ t, t) (λ _ t, t) "" (read_history ward_db "Room-1")) = None ∧
  history_query null_db "Room-1" (read_history null_db "Room-1") ∧
  translated_text <$> read_history null_db "Room-1" = [None] ∧
  snd (display_loop (λ t, t) (λ _ t, t) "hello" (read_history null_db "Room-1"))
  = Some TYPE_ERROR ∧
  snd (display_loop (λ t, t) (λ _ t, t) "fever" (read_history null_db "Room-1"))
  = Some ATTRIBUTE_ERROR.
Proof.
  split; [apply read_history_admissible|].
  destruct (display_loop_rows (λ t, t) (λ _ t, t) "" ward_db "Room-1"
              (read_history ward_db "Room-1") (read_history_admissible ward_db "Room-1"))
    as (Hok & Hall & _).
  destruct (Hok (or_introl eq_refl)) as (Hloop & _ & _ & Hcap & _).
  destruct (Hall eq_refl) as [Hshown _].
  split; [rewrite Hcap, Hshown; vm_compute; reflexivity|].
  split; [rewrite Hloop, Hshown; vm_compute; reflexivity|].
  split; [rewrite Hloop; reflexivity|].
  split; [apply read_history_admissible|].
  split; [vm_compute; reflexivity|].
  split.
  - destruct (display_loop_rows (λ t, t) (λ _ t, t) "hello" null_db "Room-1"
                (read_history null_db "Room-1") (read_history_admissible null_db "Room-1"))
      as (_ & _ & Hraise).
    destruct (Hraise eq_refl [] (stored_row 1 100
                                   (mkParams "Room-1" "Doctor" "hello" PyNone "Spanish"
                                      false None)) []
                eq_refl (Forall_nil_2 _) eq_refl) as [_ Hloop'].
    rewrite Hloop'. reflexivity.
  - destruct (display_loop_rows (λ t, t) (λ _ t, t) "fever" null_db "Room-1"
                (read_history null_db "Room-1") (read_history_admissible null_db "Room-1"))
      as (_ & _ & Hraise).
    destruct (Hraise eq_refl [] (stored_row 1 100
                                   (mkParams "Room-1" "Doctor" "hello" PyNone "Spanish"
                                      false None)) []
                eq_refl (Forall_nil_2 _) eq_refl) as [_ Hloop'].
    rewrite Hloop'. reflexivity.
Defined.

(** X16.  A block that is written in full (no search, or a translation
    that is not NULL) gets an audio player exactly when the row has
    [has_audio] set and a non-empty recording, and the player is given the
    stored bytes.  So the first recording of a session, when it is empty
    ([b""]), is still saved as a sentinel row with [has_audio] set (it
    differs from the initial fingerprint [None]), but no search setting
    ever shows a player for it, though its block is always written in
    full. *)
Theorem empty_clip_saved_but_not_played env inp w :
  (∀ re_sub q row,
     truthy q = false ∨ is_Some (translated_text row) →
     snd (display_row re_sub q row) = None ∧
     block_audio (fst (display_row re_sub q row))
     = match audio_bytes row with
       | Some (x :: data) => if has_audio row then [x :: data] else []
       | _ => []
       end) ∧
  (truthy (hf_api_key inp) = true →
   storage env = None →
   truthy_input (user_input inp) = false →
   audio_value inp = Some [] →
   last_processed_audio (session w) ≠ Some [] →
   ∃ row,
     messages (db (world (script_run env inp w))) = messages (db w) ++ [row] ∧
     original_text row = "[Audio Message Attached]" ∧
     has_audio row = true ∧
     audio_bytes row = Some [] ∧
     ∀ re_sub q, snd (display_row re_sub q row) = None ∧
                 block_audio (fst (display_row re_sub q row)) = []).
Proof.
  assert (Hrule : ∀ re_sub q row,
            truthy q = false ∨ is_Some (translated_text row) →
            snd (display_row re_sub q row) = None ∧
            block_audio (fst (display_row re_sub q row))
            = match audio_bytes row with
              | Some (x :: data) => if has_audio row then [x :: data] else []
              | _ => []
              end).
  { intros re_sub q row Hok. split; [apply display_row_completes, Hok|].
    unfold block_audio, display_row. destruct Hok as [Hq|[t Ht]].
    - rewrite Hq. cbn [fst block_body].
      destruct (audio_bytes row) as [[|x data]|]; destruct (has_audio row); reflexivity.
    - rewrite Ht. destruct (truthy q); cbn [fst block_body];
        destruct (audio_bytes row) as [[|x data]|]; destruct (has_audio row);
        reflexivity. }
  split; [exact Hrule|].
  intros Hkey Hstore Hu Ha Hnew.
  destruct (script_run_new_audio_only env inp w [] Hkey Hstore Hu Ha Hnew)
    as (row & Hm & _ & Ht & Hf & Hb & Htr).
  exists row. repeat (split; [assumption|]).
  intros re_sub q.
  destruct (Hrule re_sub q row) as [Hdone Haudio]; [right; rewrite Htr; eauto|].
  split; [exact Hdone|]. rewrite Haudio, Hb. reflexivity.
Qed.

Lemma empty_clip_saved_but_not_played_witness :
  truthy (hf_api_key (recording "Room-1" Patient [])) = true ∧
  storage (answering "hola" 100) = None ∧
  audio_value (recording "Room-1" Patient []) = Some [] ∧
  last_processed_audio (session initial_world) ≠ Some [] ∧
  ∃ row,
    messages (db (world (script_run (answering "hola" 100) (recording "Room-1" Patient [])
                           initial_world)))
    = messages (db initial_world) ++ [row] ∧
    has_audio row = true ∧
    block_audio (fst (display_row (λ _ t, t) "" row)) = [].
Proof.
  split; [reflexivity|]. split; [reflexivity|]. split; [reflexivity|].
  split; [discriminate|].
  destruct (proj2 (empty_clip_saved_but_not_played (answering "hola" 100)
                     (recording "Room-1" Patient []) initial_world)
              eq_refl eq_refl eq_refl eq_refl ltac:(discriminate))
    as (row & Hm & _ & Hf & _ & Hplay).
  exists row. split; [exact Hm|]. split; [exact Hf|]. apply (Hplay (λ _ t, t) "").
Defined.

(** ** The key and the logic handler together *)

Lemma resolve_key_key_empty getenv secrets typed :
  let secret := match secrets with Returns (Some v) => v | _ => "" end in
  (truthy (fst (resolve_key getenv secrets typed)) = false →
   truthy_input getenv = false ∧ truthy secret = false ∧ typed = "") ∧
  (truthy_input getenv = false ∧ truthy secret = false ∧ typed = "" →
   truthy (fst (resolve_key getenv secrets typed)) = false).
Proof.
  intros secret. subst secret. unfold resolve_key.
  destruct getenv as [[|c k]|]; destruct secrets as [[[|c' v]|]|e];
    cbn [truthy_input truthy negb fst];
    (split; [intros H|intros (H1 & H2 & H3)]);
    try discriminate; subst; try reflexivity;
    repeat split; try reflexivity;
    destruct typed; first [reflexivity|discriminate].
Qed.

(** X17.  With the key resolved by the sidebar, an input event (typed
    text or a recording) is turned away with the configuration error
    exactly when the environment variable, the secrets store and the
    password field are all empty or missing; a non-empty value in any of
    them lets the run go past the check. *)
Theorem config_error_iff_no_source getenv secrets typed env inp w :
  hf_api_key inp = fst (resolve_key getenv secrets typed) →
  truthy_input (user_input inp) = true ∨ is_Some (audio_value inp) →
  let secret := match secrets with Returns (Some v) => v | _ => "" end in
  outcome (script_run env inp w) = Abrupt StopException
  ↔ truthy_input getenv = false ∧ truthy secret = false ∧ typed = "".
Proof.
  intros Hkey Hany secret.
  destruct (resolve_key_key_empty getenv secrets typed) as [Hto Hfrom].
  fold secret in Hto, Hfrom. rewrite <- Hkey in Hto, Hfrom.
  split.
  - intros Hstop. apply Hto.
    destruct (truthy (hf_api_key inp)) eqn:Hk; [|reflexivity].
    exfalso. rewrite script_run_eq, (logic_handler_eq _ _ _ Hk) in Hstop.
    cbv zeta in Hstop.
    destruct (saves _ inp); [destruct (insert_failure env _)|]; discriminate.
  - intros Hnone. specialize (Hfrom Hnone).
    rewrite script_run_eq, (logic_handler_no_key _ _ _ Hfrom).
    destruct Hany as [Hu|Ha].
    + rewrite Hu. reflexivity.
    + rewrite (bool_decide_eq_true_2 _ Ha), orb_true_r. reflexivity.
Qed.

Lemma config_error_iff_no_source_witness :
  hf_api_key (without_key (typing "Room-1" Doctor "hello"))
  = fst (resolve_key None (Raises (Exception "No secrets found")) "") ∧
  truthy_input (user_input (without_key (typing "Room-1" Doctor "hello"))) = true ∧
  outcome (script_run (answering "hola" 100) (without_key (typing "Room-1" Doctor "hello"))
             initial_world)
  = Abrupt StopException.
Proof.
  split; [reflexivity|]. split; [reflexivity|].
  apply (proj2 (config_error_iff_no_source None (Raises (Exception "No secrets found")) ""
                  (answering "hola" 100) (without_key (typing "Room-1" Doctor "hello"))
                  initial_world eq_refl (or_introl eq_refl))).
  repeat split.
Defined.

(** ** What moves the fingerprint *)

(** X18.  After a run the fingerprint is the offered recording when a key
    is present and a recording was offered, and is what it was before in
    every other case: typed text never touches it, a run without a key
    never touches it, and neither a failing translation nor a failing
    store undoes the assignment. *)
Theorem fingerprint_after_run env inp w :
  last_processed_audio (session (world (script_run env inp w)))
  = if truthy (hf_api_key inp) then
      match audio_value inp with
      | Some b => Some b
      | None => last_processed_audio (session w)
      end
    else last_processed_audio (session w).
Proof.
  destruct (truthy (hf_api_key inp)) eqn:Hkey.
  - destruct (audio_value inp) as [b|] eqn:Ha.
    + apply script_run_fingerprint; assumption.
    + decide_run Hkey. unfold fresh_audio. rewrite Ha.
      destruct (truthy_input (user_input inp) || bool_decide (is_Some None));
        [case_insert err Hins|]; reflexivity.
  - rewrite script_run_eq, (logic_handler_no_key _ _ _ Hkey).
    destruct (truthy_input (user_input inp) || bool_decide (is_Some (audio_value inp)));
      reflexivity.
Qed.

(** ** A NULL translation and the search box *)

Lemma first_null_translation (l : list Row) :
  (∃ row, row ∈ l ∧ translated_text row = None) →
  ∃ before row after,
    l = before ++ row :: after ∧
    Forall (λ row, is_Some (translated_text row)) before ∧
    translated_text row = None.
Proof.
  induction l as [|x l IH]; intros (row & Hin & Hnone); [inversion Hin|].
  destruct (translated_text x) as [t|] eqn:Hx.
  - apply elem_of_cons in Hin as [-> |Hin]; [congruence|].
    destruct IH as (before & row' & after & -> & Hall & Hnone'); [eauto|].
    exists (x :: before), row', after.
    split; [reflexivity|]. split; [|exact Hnone'].
    constructor; [rewrite Hx; eauto|exact Hall].
  - exists [], x, l. split; [reflexivity|]. split; [constructor|exact Hx].
Qed.

(** X19.  Once a room holds a row with a NULL translation, every run of
    the page with a search text and that room selected ends in the
    display loop, with [AttributeError] or [TypeError]: the logic handler
    is not reached, so whatever was typed or recorded for that run is
    neither translated nor saved nor fingerprinted.  Without a search
    text the loop completes and the run goes on to the logic handler. *)
Theorem page_run_search_over_null lower re_sub q env inp w :
  (truthy q = true →
   (∃ row, row ∈ messages (db w) ∧ room_id row = sidebar_room_id inp ∧
           translated_text row = None) →
   let run := snd (page_run lower re_sub q env inp w) in
   (outcome run = Abrupt (Raised ATTRIBUTE_ERROR) ∨
    outcome run = Abrupt (Raised TYPE_ERROR)) ∧
   events run = [] ∧
   db (world run) = db w ∧
   last_processed_audio (session (world run)) = last_processed_audio (session w)) ∧
  (truthy q = false →
   snd (page_run lower re_sub q env inp w) = script_run env inp w).
Proof.
  split.
  - intros Hq (row & Hin & Hroom & Hnone) run. subst run.
    assert (Hread : ∃ row, row ∈ read_history (db w) (sidebar_room_id inp) ∧
                           translated_text row = None).
    { exists row. split; [|exact Hnone].
      destruct (order_by_timestamp_spec (scan_room (sidebar_room_id inp) (db w)))
        as [Hperm _].
      unfold read_history. rewrite Hperm. unfold scan_room.
      apply list_elem_of_filter. split; assumption. }
    apply first_null_translation in Hread
      as (before & row' & after & Hsplit & Hall & Hnone').
    unfold page_run. rewrite Hsplit.
    destruct (display_loop_raises lower re_sub q before row' after Hq Hall Hnone')
      as [_ Hloop].
    rewrite Hloop.
    destruct (contains (lower q) (lower (original_text row')));
      (split; [auto|]); repeat split.
  - intros Hq. unfold page_run.
    rewrite (display_loop_filter lower re_sub q _ (or_introl Hq)). reflexivity.
Qed.

Lemma page_run_search_over_null_witness :
  truthy "hello" = true ∧
  (∃ row, row ∈ messages null_db ∧
          room_id row = sidebar_room_id (typing "Room-1" Patient "thanks") ∧
          translated_text row = None) ∧
  outcome (snd (page_run (λ t, t) (λ _ t, t) "hello" (answering "gracias" 101)
                  (typing "Room-1" Patient "thanks") (world null_run)))
  = Abrupt (Raised TYPE_ERROR) ∧
  db (world (snd (page_run (λ t, t) (λ _ t, t) "hello" (answering "gracias" 101)
                    (typing "Room-1" Patient "thanks") (world null_run))))
  = null_db.
Proof.
  assert (Hnull : ∃ row, row ∈ messages null_db ∧
                         room_id row = sidebar_room_id (typing "Room-1" Patient "thanks") ∧
                         translated_text row = None).
  { eexists. split; [apply list_elem_of_here|]. split; reflexivity. }
  split; [reflexivity|]. split; [exact Hnull|].
  destruct (proj1 (page_run_search_over_null (λ t, t) (λ _ t, t) "hello"
                     (answering "gracias" 101) (typing "Room-1" Patient "thanks")
                     (world null_run)) eq_refl Hnull)
    as (_ & _ & Hdb & _).
  split; [vm_compute; reflexivity|exact Hdb].
Defined.
